(** * LightDM: the XDMCP session seat and the greeter library's user record

    A shallow embedding of two translation units of LightDM:

    - [src/seat-xdmcp-session.c], the seat variant that is bound to one
      negotiated XDMCP session and provisions its remote display;
    - [liblightdm-gobject/user.c], the user record of the greeter library
      with its cached per-user defaults.

    Both are GObject code.  Objects live in a reference-counted heap, a
    finite map from locations to cells; a C pointer is either [NULL] or a
    location.  Functions that may dereference a pointer that is not a live
    object of the expected class return [option]: [None] stands for the
    undefined behaviour of the C program. *)

From stdpp Require Import gmap strings list fin_maps.

(** ** The GObject heap *)

Module GObject.

Definition loc := positive.

(** A C pointer to a GObject: [None] is the null pointer. *)
Definition ptr := option loc.
Definition NULL : ptr := None.

Section heap.
Context {P : Type}.

(** An instance: GObject's reference count and the instance data. *)
Record cell := Cell { ref_count : nat; payload : P }.

Definition fresh_loc (h : gmap loc cell) : loc := fresh (dom h).

(** [g_object_new]: a new instance at an unused location, with one
    reference, held by the caller. *)
Definition g_object_new (h : gmap loc cell) (init : P) : gmap loc cell * loc :=
  let l := fresh_loc h in
  (<[l := Cell 1 init]> h, l).

(** [g_object_ref]: GLib guards the argument with
    [g_return_val_if_fail (G_IS_OBJECT (object), NULL)]; on a live object
    it increments the count and returns its argument.  A pointer to no
    live object is treated like [NULL] (in C the check would read freed
    memory). *)
Definition g_object_ref (h : gmap loc cell) (object : ptr) : gmap loc cell * ptr :=
  match object with
  | None => (h, NULL)
  | Some l =>
      match h !! l with
      | None => (h, NULL)
      | Some c => (<[l := Cell (S (ref_count c)) (payload c)]> h, Some l)
      end
  end.

(** [g_object_unref]: drops one reference; the instance is finalized
    (its cell removed) when the last one goes. *)
Definition g_object_unref (h : gmap loc cell) (object : ptr) : gmap loc cell :=
  match object with
  | None => h
  | Some l =>
      match h !! l with
      | None => h
      | Some c =>
          match ref_count c with
          | S (S n) => <[l := Cell (S n) (payload c)]> h
          | _ => delete l h
          end
      end
  end.

(** Assignment to the instance data of a live object. *)
Definition store (h : gmap loc cell) (l : loc) (f : P -> P) : gmap loc cell :=
  alter (fun c => Cell (ref_count c) (f (payload c))) l h.

End heap.

Arguments cell : clear implicits.

End GObject.

Import GObject.

(** ** The XDMCP session seat ([src/seat-xdmcp-session.c]) *)

Module SeatXDMCP.

(** *** Collaborating classes

    [xauth.c], [xdmcp-session.c], [xserver-remote.c] and [xdisplay.c] are
    not part of the translation unit; their instance data and the few
    entry points the seat calls are modelled after the data model of the
    specification. *)

(** Modelled from the spec: the Authority record of [xauth.c] (display
    number, shared secret, bind address), immutable once issued. *)
Record XAuthority := {
  xauth_number : N;
  xauth_secret : string;
  xauth_address : string
}.

(** Modelled from the spec: the NegotiatedSession of [xdmcp-session.c]
    (its authority, its display number and an opaque protocol state). *)
Record XDMCPSession := {
  session_authority : ptr;
  session_display_number : N;
  session_protocol_state : N
}.

(** Modelled from the spec: the RemoteServerHandle of [xserver-remote.c]
    (bind address, display number, the authority by reference). *)
Record XServerRemote := {
  xserver_hostname : string;
  xserver_number : N;
  xserver_authority : ptr
}.

(** Modelled from the spec: the lifecycle status of a Display. *)
Inductive DisplayStatus := Stopped | Starting | Running | Stopping | Failed.

(** Modelled from the spec: the RemoteDisplay of [xdisplay.c] (the
    handle that backs it and its lifecycle status). *)
Record XDisplay := {
  display_xserver : ptr;
  display_status : DisplayStatus
}.

(** [struct SeatXDMCPSessionPrivate]. *)
Record SeatXDMCPSessionPrivate := {
  session : ptr  (* Session being serviced *)
}.

(** The instance data of the classes of the daemon; the constructor is
    the run-time type tag. *)
Inductive object :=
| AuthorityObject (a : XAuthority)
| SessionObject (s : XDMCPSession)
| XServerObject (x : XServerRemote)
| DisplayObject (d : XDisplay)
| SeatObject (priv : SeatXDMCPSessionPrivate).

Abbreviation heap := (gmap loc (cell object)).

(** Checked casts followed by a dereference: [None] when the pointer is
    not a live instance of the class. *)
Definition deref (h : heap) (p : ptr) : option object :=
  l ← p; c ← h !! l; Some (payload c).

Definition XAUTHORITY (h : heap) (p : ptr) : option XAuthority :=
  match deref h p with Some (AuthorityObject a) => Some a | _ => None end.

Definition XDMCP_SESSION (h : heap) (p : ptr) : option XDMCPSession :=
  match deref h p with Some (SessionObject s) => Some s | _ => None end.

Definition XSERVER_REMOTE (h : heap) (p : ptr) : option XServerRemote :=
  match deref h p with Some (XServerObject x) => Some x | _ => None end.

Definition XDISPLAY (h : heap) (p : ptr) : option XDisplay :=
  match deref h p with Some (DisplayObject d) => Some d | _ => None end.

(** [SEAT_XDMCP_SESSION (seat)->priv]. *)
Definition SEAT_XDMCP_SESSION (h : heap) (p : ptr) : option SeatXDMCPSessionPrivate :=
  match deref h p with Some (SeatObject priv) => Some priv | _ => None end.

(** Modelled from the spec: the accessors of [xdmcp-session.c] and
    [xauth.c], plain reads of the fields above. *)
Definition xdmcp_session_get_authority (h : heap) (s : ptr) : option ptr :=
  session_authority <$> XDMCP_SESSION h s.

Definition xdmcp_session_get_display_number (h : heap) (s : ptr) : option N :=
  session_display_number <$> XDMCP_SESSION h s.

Definition xauth_get_address (h : heap) (authority : ptr) : option string :=
  xauth_address <$> XAUTHORITY h authority.

(** Modelled from the spec: [xserver_remote_new] of [xserver-remote.c]
    builds a handle from (bind address, display number, authority by
    reference); the authority is borrowed, neither copied nor retained. *)
Definition xserver_remote_new (h : heap) (hostname : string) (number : N)
    (authority : ptr) : heap * ptr :=
  let '(h1, self) :=
    g_object_new h (XServerObject {| xserver_hostname := hostname;
                                     xserver_number := number;
                                     xserver_authority := authority |}) in
  (h1, Some self).

(** Modelled from the spec: [xdisplay_new] of [xdisplay.c] wraps the
    handle in a display with status [Stopped]; the display takes its own
    reference on the handle. *)
Definition xdisplay_new (h : heap) (xserver : ptr) : heap * ptr :=
  let '(h1, held) := g_object_ref h xserver in
  let '(h2, self) :=
    g_object_new h1 (DisplayObject {| display_xserver := held;
                                      display_status := Stopped |}) in
  (h2, Some self).

(** *** The seat *)

(** [seat_xdmcp_session_new] (lines 26-35): the instance is created with
    zeroed private data, then the session field is assigned what
    [g_object_ref] returns.  There is no check of the argument. *)
Definition seat_xdmcp_session_new (h : heap) (session0 : ptr) : heap * ptr :=
  let '(h1, seat) := g_object_new h (SeatObject {| session := NULL |}) in
  let '(h2, held) := g_object_ref h1 session0 in
  (store h2 seat (fun _ => SeatObject {| session := held |}), Some seat).

(** [seat_xdmcp_session_add_display] (lines 37-51), the [add_display]
    method of the seat class.  The getters are stuck on a seat, session or
    authority that is not live. *)
Definition seat_xdmcp_session_add_display (h : heap) (seat : ptr) : option (heap * ptr) :=
  priv ← SEAT_XDMCP_SESSION h seat;
  authority ← xdmcp_session_get_authority h (session priv);
  address ← xauth_get_address h authority;
  number ← xdmcp_session_get_display_number h (session priv);
  let '(h1, xserver) := xserver_remote_new h address number authority in
  let '(h2, display) := xdisplay_new h1 xserver in
  let h3 := g_object_unref h2 xserver in
  Some (h3, display).

(** *** Vocabulary of the statements *)

(** The handle that [seat_xdmcp_session_add_display] builds for a session
    and its authority, and the display that wraps the handle at [xs]. *)
Definition handle_for (s : XDMCPSession) (a : XAuthority) : XServerRemote :=
  {| xserver_hostname := xauth_address a;
     xserver_number := session_display_number s;
     xserver_authority := session_authority s |}.

Definition display_on (xs : loc) : XDisplay :=
  {| display_xserver := Some xs; display_status := Stopped |}.

(** [n] successive requests for a display on the same seat, as the seat
    framework may issue them. *)
Fixpoint add_displays (n : nat) (h : heap) (seat : ptr) : option heap :=
  match n with
  | O => Some h
  | S n' => r ← seat_xdmcp_session_add_display h seat; add_displays n' r.1 seat
  end.

(** The objects an instance points to. *)
Definition references (o : object) : list loc :=
  match o with
  | AuthorityObject _ => []
  | SessionObject s => option_list (session_authority s)
  | XServerObject x => option_list (xserver_authority x)
  | DisplayObject d => option_list (display_xserver d)
  | SeatObject priv => option_list (session priv)
  end.

(** No object of the heap points outside the heap. *)
Definition heap_closed (h : heap) : Prop :=
  map_Forall (fun _ c => Forall (fun l' => is_Some (h !! l')) (references (payload c))) h.

(** The number of displays that exist in a heap. *)
Definition is_display (o : object) : bool :=
  match o with DisplayObject _ => true | _ => false end.

Definition display_count (h : heap) : nat :=
  size (filter (fun kc : loc * cell object => is_display (payload kc.2) = true) h).

(** *** The scenario of the specification

    Session S has display number 5 and authority A (secret abc, address
    10.0.0.7); the authority lives at location 1, the session at 2. *)
Definition authority_A : XAuthority :=
  {| xauth_number := 5; xauth_secret := "abc"; xauth_address := "10.0.0.7" |}.

Definition session_S : XDMCPSession :=
  {| session_authority := Some 1%positive;
     session_display_number := 5;
     session_protocol_state := 0 |}.

Definition scenario : heap :=
  <[2%positive := Cell 1 (SessionObject session_S)]>
    (<[1%positive := Cell 1 (AuthorityObject authority_A)]> ∅).

(** The same heap after [seat_xdmcp_session_new] on the session: the seat
    is at location 3. *)
Definition scenario_seat : heap * ptr :=
  seat_xdmcp_session_new scenario (Some 2%positive).

End SeatXDMCP.

(** ** The user record of the greeter library ([liblightdm-gobject/user.c]) *)

Module User.

(** A [gchar *]: [NULL] or a string.  Strings are held by value, as the
    setters store a [g_strdup] copy. *)
Definition gchar_p := option string.

Definition g_strdup (str : gchar_p) : gchar_p := str.

(** [struct _LdmUserPrivate]. *)
Record LdmUserPrivate := {
  greeter : ptr;
  name : gchar_p;
  real_name : gchar_p;
  home_directory : gchar_p;
  image : gchar_p;
  logged_in : bool;
  have_defaults : bool;
  language : gchar_p;
  layout : gchar_p;
  session : gchar_p
}.

(** Field assignments [user->priv->field = v]. *)
Definition set_greeter (v : ptr) (p : LdmUserPrivate) : LdmUserPrivate :=
  {| greeter := v; name := name p; real_name := real_name p;
     home_directory := home_directory p; image := image p;
     logged_in := logged_in p; have_defaults := have_defaults p;
     language := language p; layout := layout p; session := session p |}.

Definition set_name (v : gchar_p) (p : LdmUserPrivate) : LdmUserPrivate :=
  {| greeter := greeter p; name := v; real_name := real_name p;
     home_directory := home_directory p; image := image p;
     logged_in := logged_in p; have_defaults := have_defaults p;
     language := language p; layout := layout p; session := session p |}.

Definition set_real_name (v : gchar_p) (p : LdmUserPrivate) : LdmUserPrivate :=
  {| greeter := greeter p; name := name p; real_name := v;
     home_directory := home_directory p; image := image p;
     logged_in := logged_in p; have_defaults := have_defaults p;
     language := language p; layout := layout p; session := session p |}.

Definition set_home_directory (v : gchar_p) (p : LdmUserPrivate) : LdmUserPrivate :=
  {| greeter := greeter p; name := name p; real_name := real_name p;
     home_directory := v; image := image p;
     logged_in := logged_in p; have_defaults := have_defaults p;
     language := language p; layout := layout p; session := session p |}.

Definition set_image (v : gchar_p) (p : LdmUserPrivate) : LdmUserPrivate :=
  {| greeter := greeter p; name := name p; real_name := real_name p;
     home_directory := home_directory p; image := v;
     logged_in := logged_in p; have_defaults := have_defaults p;
     language := language p; layout := layout p; session := session p |}.

Definition set_logged_in (v : bool) (p : LdmUserPrivate) : LdmUserPrivate :=
  {| greeter := greeter p; name := name p; real_name := real_name p;
     home_directory := home_directory p; image := image p;
     logged_in := v; have_defaults := have_defaults p;
     language := language p; layout := layout p; session := session p |}.

Definition set_have_defaults (v : bool) (p : LdmUserPrivate) : LdmUserPrivate :=
  {| greeter := greeter p; name := name p; real_name := real_name p;
     home_directory := home_directory p; image := image p;
     logged_in := logged_in p; have_defaults := v;
     language := language p; layout := layout p; session := session p |}.

(** The three out parameters of the defaults lookup. *)
Definition defaults := (gchar_p * gchar_p * gchar_p)%type.

Definition get_out (p : LdmUserPrivate) : defaults :=
  (language p, layout p, session p).

Definition set_out (v : defaults) (p : LdmUserPrivate) : LdmUserPrivate :=
  {| greeter := greeter p; name := name p; real_name := real_name p;
     home_directory := home_directory p; image := image p;
     logged_in := logged_in p; have_defaults := have_defaults p;
     language := v.1.1; layout := v.1.2; session := v.2 |}.

(** The instance data of the classes of the library.  The greeter's own
    data ([greeter.c]) is opaque here. *)
Inductive object :=
| GreeterObject
| UserObject (priv : LdmUserPrivate).

(** The state of the greeter process: its objects, the number of
    critical warnings logged by failed [g_return_if_fail] checks, and the
    defaults requests sent through the greeter so far (greeter and
    username, latest first). *)
Record state := {
  heap : gmap loc (cell object);
  criticals : nat;
  lookups : list (ptr * gchar_p)
}.

Definition g_critical (s : state) : state :=
  {| heap := heap s; criticals := S (criticals s); lookups := lookups s |}.

Definition with_heap (s : state) (h : gmap loc (cell object)) : state :=
  {| heap := h; criticals := criticals s; lookups := lookups s |}.

(** [LDM_USER (user)->priv] behind the instance type check: the location
    and private data when [user] is a live [LdmUser]; nothing when it is
    [NULL], an instance of another class, or no live object. *)
Definition LDM_USER (s : state) (user : ptr) : option (loc * LdmUserPrivate) :=
  l ← user;
  c ← heap s !! l;
  match payload c with
  | UserObject priv => Some (l, priv)
  | GreeterObject => None
  end.

Definition LDM_IS_USER (s : state) (user : ptr) : bool :=
  match LDM_USER s user with Some _ => true | None => false end.

(** [user->priv = ...]: replaces the private data of the user at [l]. *)
Definition set_priv (s : state) (l : loc) (priv : LdmUserPrivate) : state :=
  with_heap s (store (heap s) l (fun _ => UserObject priv)).

(** The guards [g_return_val_if_fail (LDM_IS_USER (user), val)] and
    [g_return_if_fail (LDM_IS_USER (user))]: on failure a critical is
    logged and the function returns at once. *)
Definition g_return_val_if_fail {A : Type} (s : state) (user : ptr) (val : A)
    (body : loc -> LdmUserPrivate -> state * A) : state * A :=
  match LDM_USER s user with
  | Some (l, priv) => body l priv
  | None => (g_critical s, val)
  end.

Definition g_return_if_fail (s : state) (user : ptr)
    (body : loc -> LdmUserPrivate -> state) : state :=
  match LDM_USER s user with
  | Some (l, priv) => body l priv
  | None => g_critical s
  end.

Section accessors.

(** [ldm_greeter_get_user_defaults] ([greeter.c]) asks the daemon for
    the defaults of a username.  Its behaviour is a parameter: from the
    requests made before, the greeter, the username and the current
    contents of the three out parameters, whether it succeeded and what
    it left in the out parameters. *)
Variable ldm_greeter_get_user_defaults :
  list (ptr * gchar_p) -> ptr -> gchar_p -> defaults -> bool * defaults.

Definition ldm_user_get_name (s : state) (user : ptr) : state * gchar_p :=
  g_return_val_if_fail s user None (fun _ priv => (s, name priv)).

Definition ldm_user_set_name (s : state) (user : ptr) (v : gchar_p) : state :=
  g_return_if_fail s user (fun l priv => set_priv s l (set_name (g_strdup v) priv)).

Definition ldm_user_get_real_name (s : state) (user : ptr) : state * gchar_p :=
  g_return_val_if_fail s user None (fun _ priv => (s, real_name priv)).

Definition ldm_user_set_real_name (s : state) (user : ptr) (v : gchar_p) : state :=
  g_return_if_fail s user (fun l priv => set_priv s l (set_real_name (g_strdup v) priv)).

Definition ldm_user_get_display_name (s : state) (user : ptr) : state * gchar_p :=
  g_return_val_if_fail s user None (fun _ priv =>
    match real_name priv with
    | Some r => (s, Some r)
    | None => (s, name priv)
    end).

Definition ldm_user_get_home_directory (s : state) (user : ptr) : state * gchar_p :=
  g_return_val_if_fail s user None (fun _ priv => (s, home_directory priv)).

Definition ldm_user_set_home_directory (s : state) (user : ptr) (v : gchar_p) : state :=
  g_return_if_fail s user (fun l priv => set_priv s l (set_home_directory (g_strdup v) priv)).

Definition ldm_user_get_image (s : state) (user : ptr) : state * gchar_p :=
  g_return_val_if_fail s user None (fun _ priv => (s, image priv)).

Definition ldm_user_set_image (s : state) (user : ptr) (v : gchar_p) : state :=
  g_return_if_fail s user (fun l priv => set_priv s l (set_image (g_strdup v) priv)).

(** [get_defaults] (lines 176-184): returns the state after the call
    together with the private data of the user as the caller then reads
    it. *)
Definition get_defaults (s : state) (l : loc) (priv : LdmUserPrivate)
    : state * LdmUserPrivate :=
  if have_defaults priv then (s, priv)
  else
    let '(ok, out) :=
      ldm_greeter_get_user_defaults (lookups s) (greeter priv) (name priv)
                                    (get_out priv) in
    let priv1 := set_out out priv in
    let priv2 := if ok then set_have_defaults true priv1 else priv1 in
    ({| heap := store (heap s) l (fun _ => UserObject priv2);
        criticals := criticals s;
        lookups := (greeter priv, name priv) :: lookups s |}, priv2).

Definition ldm_user_get_language (s : state) (user : ptr) : state * gchar_p :=
  g_return_val_if_fail s user None (fun l priv =>
    let '(s1, priv1) := get_defaults s l priv in
    (s1, language priv1)).

Definition ldm_user_get_layout (s : state) (user : ptr) : state * gchar_p :=
  g_return_val_if_fail s user None (fun l priv =>
    let '(s1, priv1) := get_defaults s l priv in
    (s1, layout priv1)).

Definition ldm_user_get_session (s : state) (user : ptr) : state * gchar_p :=
  g_return_val_if_fail s user None (fun l priv =>
    let '(s1, priv1) := get_defaults s l priv in
    (s1, session priv1)).

Definition ldm_user_get_logged_in (s : state) (user : ptr) : state * bool :=
  g_return_val_if_fail s user false (fun _ priv => (s, logged_in priv)).

Definition ldm_user_set_logged_in (s : state) (user : ptr) (v : bool) : state :=
  g_return_if_fail s user (fun l priv => set_priv s l (set_logged_in v priv)).

(** [ldm_user_new]: [g_object_new] creates the instance with zeroed
    private data and hands the construct properties, in the order
    given, to [ldm_user_set_property], which takes a reference on the
    greeter and calls the setters above. *)
Definition ldm_user_new (s : state) (greeter0 : ptr) (name0 real_name0
    home_directory0 image0 : gchar_p) (logged_in0 : bool) : state * ptr :=
  let zero :=
    {| greeter := NULL; name := None; real_name := None;
       home_directory := None; image := None; logged_in := false;
       have_defaults := false; language := None; layout := None;
       session := None |} in
  let '(h1, self) := g_object_new (heap s) (UserObject zero) in
  let '(h2, held) := g_object_ref h1 greeter0 in
  let s2 := set_priv (with_heap s h2) self (set_greeter held zero) in
  let s3 := ldm_user_set_name s2 (Some self) name0 in
  let s4 := ldm_user_set_real_name s3 (Some self) real_name0 in
  let s5 := ldm_user_set_home_directory s4 (Some self) home_directory0 in
  let s6 := ldm_user_set_image s5 (Some self) image0 in
  let s7 := ldm_user_set_logged_in s6 (Some self) logged_in0 in
  (s7, Some self).

(** *** Vocabulary of the statements *)

(** The three cached defaults, named after the properties they serve,
    with the accessor and the cache field of each. *)
Inductive default_property := PROP_LANGUAGE | PROP_LAYOUT | PROP_SESSION.

Definition ldm_user_get_default (prop : default_property)
    : state -> ptr -> state * gchar_p :=
  match prop with
  | PROP_LANGUAGE => ldm_user_get_language
  | PROP_LAYOUT => ldm_user_get_layout
  | PROP_SESSION => ldm_user_get_session
  end.

Definition cached_default (prop : default_property) (priv : LdmUserPrivate) : gchar_p :=
  match prop with
  | PROP_LANGUAGE => language priv
  | PROP_LAYOUT => layout priv
  | PROP_SESSION => session priv
  end.

End accessors.

(** *** A greeter process to run the accessors in

    The greeter object is at location 1 and the user alice, created by
    [ldm_user_new] without a real name, at location 2.  The daemon fails
    the first defaults request, leaving the out parameters alone, and
    answers every later one. *)
Definition daemon (history : list (ptr * gchar_p)) (greeter0 : ptr)
    (username : gchar_p) (out : defaults) : bool * defaults :=
  match history with
  | [] => (false, out)
  | _ :: _ => (true, (Some "en_GB", Some "gb", Some "gnome"))
  end.

Definition greeter_process : state :=
  {| heap := <[1%positive := Cell 1 GreeterObject]> ∅;
     criticals := 0;
     lookups := [] |}.

Definition alice_created : state * ptr :=
  ldm_user_new greeter_process (Some 1%positive) (Some "alice") None
               (Some "/home/alice") None false.

(** The process after a first, failed, read of the language of alice. *)
Definition alice_retry : state :=
  (ldm_user_get_language daemon alice_created.1 alice_created.2).1.

Definition alice_priv : LdmUserPrivate :=
  {| greeter := Some 1%positive; name := Some "alice"; real_name := None;
     home_directory := Some "/home/alice"; image := None; logged_in := false;
     have_defaults := false; language := None; layout := None;
     session := None |}.

End User.

(** ** Sequences of accessor calls on user records *)

Module UserCalls.

Import User.

(** The four string fields that have a getter and a setter, with the
    accessors of each. *)
Inductive string_field := NAME | REAL_NAME | HOME_DIRECTORY | IMAGE.

Definition ldm_user_get_string (f : string_field) : state -> ptr -> state * gchar_p :=
  match f with
  | NAME => ldm_user_get_name
  | REAL_NAME => ldm_user_get_real_name
  | HOME_DIRECTORY => ldm_user_get_home_directory
  | IMAGE => ldm_user_get_image
  end.

Definition ldm_user_set_string (f : string_field) : state -> ptr -> gchar_p -> state :=
  match f with
  | NAME => ldm_user_set_name
  | REAL_NAME => ldm_user_set_real_name
  | HOME_DIRECTORY => ldm_user_set_home_directory
  | IMAGE => ldm_user_set_image
  end.

(** The field that the accessors of a string field read and write. *)
Definition string_of (f : string_field) (priv : LdmUserPrivate) : gchar_p :=
  match f with
  | NAME => name priv
  | REAL_NAME => real_name priv
  | HOME_DIRECTORY => home_directory priv
  | IMAGE => image priv
  end.

Definition with_string (f : string_field) (v : gchar_p) (priv : LdmUserPrivate)
    : LdmUserPrivate :=
  match f with
  | NAME => set_name v priv
  | REAL_NAME => set_real_name v priv
  | HOME_DIRECTORY => set_home_directory v priv
  | IMAGE => set_image v priv
  end.

(** A call of one of the fourteen public accessors, without its user
    argument. *)
Inductive call :=
| GetString (f : string_field)
| SetString (f : string_field) (v : gchar_p)
| GetDisplayName
| GetDefault (prop : default_property)
| GetLoggedIn
| SetLoggedIn (v : bool).

Section run.

Variable ldm_greeter_get_user_defaults :
  list (ptr * gchar_p) -> ptr -> gchar_p -> defaults -> bool * defaults.

(** The state after one call on [user]; the value returned is dropped. *)
Definition perform (s : state) (user : ptr) (c : call) : state :=
  match c with
  | GetString f => (ldm_user_get_string f s user).1
  | SetString f v => ldm_user_set_string f s user v
  | GetDisplayName => (ldm_user_get_display_name s user).1
  | GetDefault prop => (ldm_user_get_default ldm_greeter_get_user_defaults prop s user).1
  | GetLoggedIn => (ldm_user_get_logged_in s user).1
  | SetLoggedIn v => ldm_user_set_logged_in s user v
  end.

(** The state after a sequence of calls, each on a pointer of its own. *)
Definition run (s : state) (calls : list (ptr * call)) : state :=
  fold_left (fun s1 uc => perform s1 uc.1 uc.2) calls s.

End run.

(** The greeter process of alice after the second, successful, read of
    her language, and a sequence of calls that mixes users, a greeter
    and NULL. *)
Definition alice_cached : state :=
  (ldm_user_get_language daemon alice_retry alice_created.2).1.

Definition alice_cached_priv : LdmUserPrivate :=
  {| greeter := Some 1%positive; name := Some "alice"; real_name := None;
     home_directory := Some "/home/alice"; image := None; logged_in := false;
     have_defaults := true; language := Some "en_GB"; layout := Some "gb";
     session := Some "gnome" |}.

Definition mixed_calls : list (ptr * call) :=
  [ (Some 2%positive, SetString NAME (Some "alicia"));
    (Some 2%positive, GetDefault PROP_LAYOUT);
    (Some 1%positive, GetLoggedIn);
    (NULL, SetLoggedIn true);
    (Some 2%positive, SetString REAL_NAME (Some "Alicia A."));
    (Some 2%positive, GetDefault PROP_SESSION) ].

End UserCalls.

(** ** The GObject properties of the user record
       ([ldm_user_set_property], [ldm_user_get_property],
       [ldm_user_class_init]) *)

Module UserProperties.

Import User.

(** The property identifiers (lines 14-26); a [guint] at the call. *)
Abbreviation PROP_0 := 0%N.
Abbreviation PROP_GREETER := 1%N.
Abbreviation PROP_NAME := 2%N.
Abbreviation PROP_REAL_NAME := 3%N.
Abbreviation PROP_DISPLAY_NAME := 4%N.
Abbreviation PROP_HOME_DIRECTORY := 5%N.
Abbreviation PROP_IMAGE := 6%N.
Abbreviation PROP_LANGUAGE := 7%N.
Abbreviation PROP_LAYOUT := 8%N.
Abbreviation PROP_SESSION := 9%N.
Abbreviation PROP_LOGGED_IN := 10%N.

(** GLib's [GValue], for the three types the class uses, with the typed
    readers and writers of GLib: a reader applied to a value of another
    type logs a critical and returns NULL (FALSE); a writer applied to a
    value of another type logs a critical and leaves the value alone. *)
Inductive GType := G_TYPE_OBJECT | G_TYPE_STRING | G_TYPE_BOOLEAN.

Inductive GValue :=
| G_VALUE_OBJECT (v : ptr)
| G_VALUE_STRING (v : gchar_p)
| G_VALUE_BOOLEAN (v : bool).



Definition g_value_get_object (s : state) (value : GValue) : state * ptr :=
  match value with G_VALUE_OBJECT v => (s, v) | _ => (g_critical s, NULL) end.

Definition g_value_get_string (s : state) (value : GValue) : state * gchar_p :=
  match value with G_VALUE_STRING v => (s, v) | _ => (g_critical s, None) end.

Definition g_value_get_boolean (s : state) (value : GValue) : state * bool :=
  match value with G_VALUE_BOOLEAN v => (s, v) | _ => (g_critical s, false) end.

Definition g_value_set_string (s : state) (value : GValue) (v : gchar_p) : state * GValue :=
  match value with
  | G_VALUE_STRING _ => (s, G_VALUE_STRING (g_strdup v))
  | _ => (g_critical s, value)
  end.

Definition g_value_set_boolean (s : state) (value : GValue) (v : bool) : state * GValue :=
  match value with
  | G_VALUE_BOOLEAN _ => (s, G_VALUE_BOOLEAN v)
  | _ => (g_critical s, value)
  end.

(** [ldm_user_set_property] (lines 262-295).  GObject calls it on
    instances of the class only: on anything else the result is [None].
    The flag returned tells whether the switch fell through to
    [G_OBJECT_WARN_INVALID_PROPERTY_ID], which only warns. *)
Definition ldm_user_set_property (s : state) (object : ptr) (prop_id : N)
    (value : GValue) : option (state * bool) :=
  lp ← LDM_USER s object;
  let self := object in
  match prop_id with
  | PROP_GREETER =>
      let '(s1, v) := g_value_get_object s value in
      let '(h2, held) := g_object_ref (heap s1) v in
      Some (set_priv (with_heap s1 h2) lp.1 (set_greeter held lp.2), false)
  | PROP_NAME =>
      let '(s1, v) := g_value_get_string s value in
      Some (ldm_user_set_name s1 self v, false)
  | PROP_REAL_NAME =>
      let '(s1, v) := g_value_get_string s value in
      Some (ldm_user_set_real_name s1 self v, false)
  | PROP_HOME_DIRECTORY =>
      let '(s1, v) := g_value_get_string s value in
      Some (ldm_user_set_home_directory s1 self v, false)
  | PROP_IMAGE =>
      let '(s1, v) := g_value_get_string s value in
      Some (ldm_user_set_image s1 self v, false)
  | PROP_LOGGED_IN =>
      let '(s1, v) := g_value_get_boolean s value in
      Some (ldm_user_set_logged_in s1 self v, false)
  | _ => Some (s, true)
  end.

Section get.

Variable ldm_greeter_get_user_defaults :
  list (ptr * gchar_p) -> ptr -> gchar_p -> defaults -> bool * defaults.

(** [ldm_user_get_property] (lines 297-339): the state and the value after
    the call, with the same flag. *)
Definition ldm_user_get_property (s : state) (object : ptr) (prop_id : N)
    (value : GValue) : option (state * GValue * bool) :=
  lp ← LDM_USER s object;
  let self := object in
  let string_of (r : state * gchar_p) :=
    let '(s2, value2) := g_value_set_string r.1 value r.2 in Some (s2, value2, false) in
  match prop_id with
  | PROP_NAME => string_of (ldm_user_get_name s self)
  | PROP_REAL_NAME => string_of (ldm_user_get_real_name s self)
  | PROP_DISPLAY_NAME => string_of (ldm_user_get_display_name s self)
  | PROP_HOME_DIRECTORY => string_of (ldm_user_get_home_directory s self)
  | PROP_IMAGE => string_of (ldm_user_get_image s self)
  | PROP_LANGUAGE => string_of (ldm_user_get_language ldm_greeter_get_user_defaults s self)
  | PROP_LAYOUT => string_of (ldm_user_get_layout ldm_greeter_get_user_defaults s self)
  | PROP_SESSION => string_of (ldm_user_get_session ldm_greeter_get_user_defaults s self)
  | PROP_LOGGED_IN =>
      let r := ldm_user_get_logged_in s self in
      let '(s2, value2) := g_value_set_boolean r.1 value r.2 in
      Some (s2, value2, false)
  | _ => Some (s, value, true)
  end.

End get.

(** GLib's parameter flags. *)
Definition G_PARAM_READABLE : N := N.shiftl 1 0.
Definition G_PARAM_WRITABLE : N := N.shiftl 1 1.
Definition G_PARAM_READWRITE : N := N.lor G_PARAM_READABLE G_PARAM_WRITABLE.
Definition G_PARAM_CONSTRUCT_ONLY : N := N.shiftl 1 3.

(** One [g_object_class_install_property] of [ldm_user_class_init]. *)
Record GParamSpec := {
  param_id : N;
  param_name : string;
  value_type : GType;
  flags : N
}.

(** The properties that [ldm_user_class_init] installs (lines 351-420),
    in its order. *)
Definition ldm_user_class_init : list GParamSpec :=
  [ {| param_id := PROP_GREETER; param_name := "greeter";
       value_type := G_TYPE_OBJECT;
       flags := N.lor G_PARAM_WRITABLE G_PARAM_CONSTRUCT_ONLY |};
    {| param_id := PROP_NAME; param_name := "name";
       value_type := G_TYPE_STRING;
       flags := N.lor G_PARAM_READWRITE G_PARAM_CONSTRUCT_ONLY |};
    {| param_id := PROP_REAL_NAME; param_name := "real-name";
       value_type := G_TYPE_STRING;
       flags := N.lor G_PARAM_READWRITE G_PARAM_CONSTRUCT_ONLY |};
    {| param_id := PROP_DISPLAY_NAME; param_name := "display-name";
       value_type := G_TYPE_STRING;
       flags := G_PARAM_READABLE |};
    {| param_id := PROP_HOME_DIRECTORY; param_name := "home-directory";
       value_type := G_TYPE_STRING;
       flags := N.lor G_PARAM_READWRITE G_PARAM_CONSTRUCT_ONLY |};
    {| param_id := PROP_IMAGE; param_name := "image";
       value_type := G_TYPE_STRING;
       flags := N.lor G_PARAM_READWRITE G_PARAM_CONSTRUCT_ONLY |};
    {| param_id := PROP_LANGUAGE; param_name := "language";
       value_type := G_TYPE_STRING;
       flags := G_PARAM_READABLE |};
    {| param_id := PROP_LAYOUT; param_name := "layout";
       value_type := G_TYPE_STRING;
       flags := G_PARAM_READABLE |};
    {| param_id := PROP_SESSION; param_name := "session";
       value_type := G_TYPE_STRING;
       flags := G_PARAM_READABLE |};
    {| param_id := PROP_LOGGED_IN; param_name := "logged-in";
       value_type := G_TYPE_BOOLEAN;
       flags := N.lor G_PARAM_READWRITE G_PARAM_CONSTRUCT_ONLY |} ].

(** The installed property with a given identifier, and what its flags
    allow. *)
Definition find_property (prop_id : N) : option GParamSpec :=
  List.find (fun spec => N.eqb (param_id spec) prop_id) ldm_user_class_init.

Definition readable (prop_id : N) : bool :=
  match find_property prop_id with
  | Some spec => negb (N.eqb (N.land (flags spec) G_PARAM_READABLE) 0)
  | None => false
  end.

Definition writable (prop_id : N) : bool :=
  match find_property prop_id with
  | Some spec => negb (N.eqb (N.land (flags spec) G_PARAM_WRITABLE) 0)
  | None => false
  end.

End UserProperties.

(** ** Facts about the heap primitives *)

Module GObjectFacts.

Section heap.
Context {P : Type}.
Implicit Types (h : gmap loc (cell P)) (l : loc) (c : cell P) (p : ptr).

Lemma fresh_loc_None h : h !! fresh_loc h = None.
Proof.
  unfold fresh_loc. apply (not_elem_of_dom (D := gset loc)). apply is_fresh.
Qed.

Lemma fresh_loc_ne h l c : h !! l = Some c -> l <> fresh_loc h.
Proof. intros Hl ->. rewrite fresh_loc_None in Hl. discriminate. Qed.

Lemma g_object_new_eq h (init : P) :
  g_object_new h init = (<[fresh_loc h := Cell 1 init]> h, fresh_loc h).
Proof. reflexivity. Qed.

Lemma g_object_ref_live h l c :
  h !! l = Some c ->
  g_object_ref h (Some l) = (<[l := Cell (S (ref_count c)) (payload c)]> h, Some l).
Proof. intros Hl. simpl. by rewrite Hl. Qed.

Lemma g_object_ref_NULL h : g_object_ref h NULL = (h, NULL).
Proof. reflexivity. Qed.

(** Taking a reference changes counts only, never instance data. *)
Lemma g_object_ref_payload h p l :
  payload <$> (g_object_ref h p).1 !! l = payload <$> h !! l.
Proof.
  destruct p as [l0|]; simpl; [|done].
  destruct (h !! l0) as [c|] eqn:E; simpl; [|done].
  destruct (decide (l0 = l)) as [->|Hne].
  - by rewrite lookup_insert_eq, E.
  - by rewrite lookup_insert_ne.
Qed.

Lemma g_object_unref_shared h l n (x : P) :
  h !! l = Some (Cell (S (S n)) x) ->
  g_object_unref h (Some l) = <[l := Cell (S n) x]> h.
Proof. intros Hl. simpl. by rewrite Hl. Qed.

End heap.

End GObjectFacts.

(** ** Facts about the XDMCP session seat *)

Module SeatXDMCPFacts.

Import SeatXDMCP GObjectFacts.

Implicit Types (h : heap) (p seat : ptr) (l : loc) (o : object).

#[local] Arguments g_object_ref : simpl never.
#[local] Arguments g_object_unref : simpl never.

Lemma deref_Some h p o :
  deref h p = Some o <-> exists l rc, p = Some l /\ h !! l = Some (Cell rc o).
Proof.
  unfold deref. split.
  - destruct p as [l|]; simpl; [|done].
    destruct (h !! l) as [[rc o']|] eqn:E; simpl; [|done].
    intros [= ->]. by exists l, rc.
  - intros (l & rc & -> & Hl). simpl. by rewrite Hl.
Qed.

Lemma deref_weaken h h' p o : h ⊆ h' -> deref h p = Some o -> deref h' p = Some o.
Proof.
  intros Hsub (l & rc & -> & Hl)%deref_Some. apply deref_Some.
  exists l, rc. split; [done|]. by eapply lookup_weaken.
Qed.

(** One call of the method on a seat whose session and authority are
    live: two cells are added at unused locations, the handle and the
    display, each with one reference; nothing else changes. *)
Lemma add_display_spec h seat priv s a :
  SEAT_XDMCP_SESSION h seat = Some priv ->
  XDMCP_SESSION h (session priv) = Some s ->
  XAUTHORITY h (session_authority s) = Some a ->
  exists xs d,
    xs <> d /\ h !! xs = None /\ h !! d = None /\
    seat_xdmcp_session_add_display h seat =
      Some (<[d := Cell 1 (DisplayObject (display_on xs))]>
              (<[xs := Cell 1 (XServerObject (handle_for s a))]> h), Some d).
Proof.
  intros Hseat Hs Ha.
  set (X := XServerObject (handle_for s a)).
  set (xs := fresh_loc h).
  set (d := fresh_loc (<[xs := Cell 2 X]> h)).
  assert (Hxs : h !! xs = None) by apply fresh_loc_None.
  assert (Hd : <[xs := Cell 2 X]> h !! d = None) by apply fresh_loc_None.
  assert (Hne : xs <> d).
  { intros E. rewrite <- E, lookup_insert_eq in Hd. discriminate. }
  exists xs, d. split; [done|]. split; [done|]. split.
  { by rewrite lookup_insert_ne in Hd. }
  unfold seat_xdmcp_session_add_display, xdmcp_session_get_authority,
    xauth_get_address, xdmcp_session_get_display_number.
  rewrite Hseat; simpl. rewrite Hs; simpl. rewrite Ha; simpl.
  unfold xserver_remote_new, xdisplay_new.
  rewrite ?g_object_new_eq. fold xs. fold (handle_for s a). fold X.
  rewrite (g_object_ref_live _ xs (Cell 1 X)) by apply lookup_insert_eq.
  simpl. rewrite insert_insert_eq. fold d. fold (display_on xs).
  rewrite (g_object_unref_shared _ xs 0 X)
    by (rewrite lookup_insert_ne by done; apply lookup_insert_eq).
  do 2 f_equal.
  rewrite (insert_insert_ne _ xs d) by done. by rewrite insert_insert_eq.
Qed.

Lemma deref_lookup h l : deref h (Some l) = payload <$> h !! l.
Proof. unfold deref. simpl. by destruct (h !! l). Qed.

(** The constructor, step by step. *)
Lemma seat_new_eq h session0 :
  seat_xdmcp_session_new h session0 =
    (let seat := fresh_loc h in
     let r := g_object_ref (<[seat := Cell 1 (SeatObject {| session := NULL |})]> h)
                           session0 in
     (store r.1 seat (fun _ => SeatObject {| session := r.2 |}), Some seat)).
Proof.
  unfold seat_xdmcp_session_new. rewrite g_object_new_eq. simpl.
  by destruct (g_object_ref _ session0).
Qed.

(** The constructor leaves the instance data of every live object as it
    was. *)
Lemma seat_new_preserves h session0 p o :
  deref h p = Some o -> deref (seat_xdmcp_session_new h session0).1 p = Some o.
Proof.
  intros Hp. pose proof Hp as (l & rc & -> & Hl)%deref_Some.
  rewrite seat_new_eq; cbn [fst snd]. rewrite deref_lookup. unfold store.
  rewrite lookup_alter_ne by (intros E; symmetry in E; revert E; by eapply fresh_loc_ne).
  rewrite g_object_ref_payload, lookup_insert_ne
    by (intros E; symmetry in E; revert E; by eapply fresh_loc_ne).
  by rewrite Hl.
Qed.

(** What the new seat is bound to is what [g_object_ref] made of the
    argument: the session itself when it is live, [NULL] when it is
    [NULL]. *)
Lemma seat_new_bound_live h session0 s :
  XDMCP_SESSION h session0 = Some s ->
  SEAT_XDMCP_SESSION (seat_xdmcp_session_new h session0).1
                     (seat_xdmcp_session_new h session0).2
    = Some {| session := session0 |}.
Proof.
  unfold XDMCP_SESSION. intros Hs.
  destruct (deref h session0) as [o|] eqn:Hd; [|done].
  apply deref_Some in Hd as (l & rc & -> & Hl).
  assert (Hne : l <> fresh_loc h) by (by eapply fresh_loc_ne).
  rewrite seat_new_eq; cbn [fst snd].
  rewrite (g_object_ref_live _ l (Cell rc o)) by (by rewrite lookup_insert_ne).
  cbn [fst snd]. unfold SEAT_XDMCP_SESSION. rewrite deref_lookup. unfold store.
  rewrite lookup_alter_eq, lookup_insert_ne, lookup_insert_eq by done.
  done.
Qed.

Lemma add_display_grows h seat h' d :
  seat_xdmcp_session_add_display h seat = Some (h', d) -> h ⊆ h'.
Proof.
  unfold seat_xdmcp_session_add_display, xdmcp_session_get_authority,
    xauth_get_address, xdmcp_session_get_display_number.
  destruct (SEAT_XDMCP_SESSION h seat) as [priv|] eqn:Hseat; [|done]. simpl.
  destruct (XDMCP_SESSION h (session priv)) as [s|] eqn:Hs; [|done]. simpl.
  destruct (XAUTHORITY h (session_authority s)) as [a|] eqn:Ha; [|done].
  destruct (add_display_spec h seat priv s a Hseat Hs Ha)
    as (xs & d' & Hne & Hxs & Hd & E).
  unfold seat_xdmcp_session_add_display, xdmcp_session_get_authority,
    xauth_get_address, xdmcp_session_get_display_number in E.
  rewrite Hseat in E; simpl in E. rewrite Hs in E; simpl in E.
  rewrite Ha in E. intros E'. rewrite E in E'. injection E' as <- <-.
  etrans; [apply (insert_subseteq h xs); done|].
  apply insert_subseteq. by rewrite lookup_insert_ne.
Qed.

Lemma seat_new_bound_NULL h :
  SEAT_XDMCP_SESSION (seat_xdmcp_session_new h NULL).1
                     (seat_xdmcp_session_new h NULL).2
    = Some {| session := NULL |}.
Proof.
  rewrite seat_new_eq; cbn [fst snd]. unfold SEAT_XDMCP_SESSION.
  rewrite deref_lookup, g_object_ref_NULL. unfold store; cbn [fst snd].
  by rewrite lookup_alter_eq, lookup_insert_eq.
Qed.

Lemma XSERVER_REMOTE_lookup h l rc x :
  h !! l = Some (Cell rc (XServerObject x)) -> XSERVER_REMOTE h (Some l) = Some x.
Proof. intros Hl. unfold XSERVER_REMOTE. by rewrite deref_lookup, Hl. Qed.

Lemma XDISPLAY_lookup h l rc d :
  h !! l = Some (Cell rc (DisplayObject d)) -> XDISPLAY h (Some l) = Some d.
Proof. intros Hl. unfold XDISPLAY. by rewrite deref_lookup, Hl. Qed.

Lemma XDMCP_SESSION_weaken h h' p s :
  h ⊆ h' -> XDMCP_SESSION h p = Some s -> XDMCP_SESSION h' p = Some s.
Proof.
  unfold XDMCP_SESSION. intros Hsub Hp.
  destruct (deref h p) as [o|] eqn:E; [|done].
  by rewrite (deref_weaken h h' p o Hsub E).
Qed.

Lemma XAUTHORITY_weaken h h' p a :
  h ⊆ h' -> XAUTHORITY h p = Some a -> XAUTHORITY h' p = Some a.
Proof.
  unfold XAUTHORITY. intros Hsub Hp.
  destruct (deref h p) as [o|] eqn:E; [|done].
  by rewrite (deref_weaken h h' p o Hsub E).
Qed.

Lemma SEAT_XDMCP_SESSION_weaken h h' p priv :
  h ⊆ h' -> SEAT_XDMCP_SESSION h p = Some priv -> SEAT_XDMCP_SESSION h' p = Some priv.
Proof.
  unfold SEAT_XDMCP_SESSION. intros Hsub Hp.
  destruct (deref h p) as [o|] eqn:E; [|done].
  by rewrite (deref_weaken h h' p o Hsub E).
Qed.

Lemma XDMCP_SESSION_seat_new h session0 p s :
  XDMCP_SESSION h p = Some s ->
  XDMCP_SESSION (seat_xdmcp_session_new h session0).1 p = Some s.
Proof.
  unfold XDMCP_SESSION. intros Hp.
  destruct (deref h p) as [o|] eqn:E; [|done].
  by rewrite (seat_new_preserves h session0 p o E).
Qed.

Lemma XAUTHORITY_seat_new h session0 p a :
  XAUTHORITY h p = Some a ->
  XAUTHORITY (seat_xdmcp_session_new h session0).1 p = Some a.
Proof.
  unfold XAUTHORITY. intros Hp.
  destruct (deref h p) as [o|] eqn:E; [|done].
  by rewrite (seat_new_preserves h session0 p o E).
Qed.

(** C1.  For every heap in which the session and its authority are live,
    constructing the seat around the session and calling the add_display
    method once succeeds; the display returned is a stopped display
    backed by a handle that carries the display number of the session,
    the authority of the session, and the address of that authority. *)
Theorem create_display_binds_session h session0 s a :
  XDMCP_SESSION h session0 = Some s ->
  XAUTHORITY h (session_authority s) = Some a ->
  exists h1 seat h2 d xs,
    seat_xdmcp_session_new h session0 = (h1, seat) /\
    seat_xdmcp_session_add_display h1 seat = Some (h2, Some d) /\
    XDISPLAY h2 (Some d)
      = Some {| display_xserver := Some xs; display_status := Stopped |} /\
    XSERVER_REMOTE h2 (Some xs)
      = Some {| xserver_hostname := xauth_address a;
                xserver_number := session_display_number s;
                xserver_authority := session_authority s |} /\
    XDMCP_SESSION h2 session0 = Some s /\
    XAUTHORITY h2 (session_authority s) = Some a.
Proof.
  intros Hs Ha.
  pose proof (seat_new_bound_live h session0 s Hs) as Hseat.
  pose proof (XDMCP_SESSION_seat_new h session0 _ _ Hs) as Hs1.
  pose proof (XAUTHORITY_seat_new h session0 _ _ Ha) as Ha1.
  destruct (seat_xdmcp_session_new h session0) as [h1 seat] eqn:Enew.
  cbn [fst snd] in *.
  destruct (add_display_spec h1 seat _ s a Hseat Hs1 Ha1)
    as (xs & d & Hne & Hxs & Hd & Eadd).
  pose proof (add_display_grows _ _ _ _ Eadd) as Hsub.
  eexists h1, seat, _, d, xs. split; [done|]. split; [exact Eadd|].
  split; [|split; [|split]].
  - eapply XDISPLAY_lookup. apply lookup_insert_eq.
  - eapply XSERVER_REMOTE_lookup.
    rewrite lookup_insert_ne by done. apply lookup_insert_eq.
  - by eapply XDMCP_SESSION_weaken.
  - by eapply XAUTHORITY_weaken.
Qed.

(** The scenario of the specification, run through C1. *)
Lemma create_display_binds_session_scenario :
  exists h1 seat h2 d xs,
    seat_xdmcp_session_new scenario (Some 2%positive) = (h1, seat) /\
    seat_xdmcp_session_add_display h1 seat = Some (h2, Some d) /\
    XDISPLAY h2 (Some d)
      = Some {| display_xserver := Some xs; display_status := Stopped |} /\
    XSERVER_REMOTE h2 (Some xs)
      = Some {| xserver_hostname := "10.0.0.7";
                xserver_number := 5;
                xserver_authority := Some 1%positive |} /\
    XDMCP_SESSION h2 (Some 2%positive) = Some session_S /\
    XAUTHORITY h2 (Some 1%positive) = Some authority_A.
Proof.
  apply (create_display_binds_session scenario (Some 2%positive)
           session_S authority_A); reflexivity.
Defined.

Lemma display_count_step h xs d rc rc' (x : XServerRemote) (dpy : XDisplay) :
  xs <> d -> h !! xs = None -> h !! d = None ->
  display_count (<[d := Cell rc (DisplayObject dpy)]>
                   (<[xs := Cell rc' (XServerObject x)]> h))
    = S (display_count h).
Proof.
  intros Hne Hxs Hd. unfold display_count.
  rewrite map_filter_insert_True by done.
  rewrite map_filter_insert_not' by (done || (intros y; by rewrite Hxs)).
  apply map_size_insert_None.
  apply map_lookup_filter_None. by left.
Qed.

(** C2, as the code has it.  The method keeps no record of displays
    already provisioned and has no failure for a second request: on a
    seat whose session and authority are live, a second call succeeds
    like the first, returns another display on another handle that
    carries the same display number and authority, and each call adds one
    display to the heap. *)
Theorem second_add_display_provisions_again h seat priv s a :
  SEAT_XDMCP_SESSION h seat = Some priv ->
  XDMCP_SESSION h (session priv) = Some s ->
  XAUTHORITY h (session_authority s) = Some a ->
  exists h1 d1 xs1 h2 d2 xs2,
    seat_xdmcp_session_add_display h seat = Some (h1, Some d1) /\
    seat_xdmcp_session_add_display h1 seat = Some (h2, Some d2) /\
    d1 <> d2 /\ xs1 <> xs2 /\
    XDISPLAY h2 (Some d1) = Some (display_on xs1) /\
    XDISPLAY h2 (Some d2) = Some (display_on xs2) /\
    XSERVER_REMOTE h2 (Some xs1) = Some (handle_for s a) /\
    XSERVER_REMOTE h2 (Some xs2) = Some (handle_for s a) /\
    display_count h1 = S (display_count h) /\
    display_count h2 = S (S (display_count h)).
Proof.
  intros Hseat Hs Ha.
  destruct (add_display_spec h seat priv s a Hseat Hs Ha)
    as (xs1 & d1 & Hne1 & Hxs1 & Hd1 & E1).
  pose proof (add_display_grows _ _ _ _ E1) as Hsub1.
  set (h1 := <[d1 := _]> _) in *.
  assert (Hh1d : h1 !! d1 = Some (Cell 1 (DisplayObject (display_on xs1))))
    by apply lookup_insert_eq.
  assert (Hh1x : h1 !! xs1 = Some (Cell 1 (XServerObject (handle_for s a)))).
  { unfold h1. rewrite lookup_insert_ne by done. apply lookup_insert_eq. }
  destruct (add_display_spec h1 seat priv s a) as (xs2 & d2 & Hne2 & Hxs2 & Hd2 & E2).
  { by eapply SEAT_XDMCP_SESSION_weaken. }
  { by eapply XDMCP_SESSION_weaken. }
  { by eapply XAUTHORITY_weaken. }
  pose proof (add_display_grows _ _ _ _ E2) as Hsub2.
  eexists h1, d1, xs1, _, d2, xs2.
  split; [exact E1|]. split; [exact E2|].
  split; [intros ->; by rewrite Hd2 in Hh1d|].
  split; [intros ->; by rewrite Hxs2 in Hh1x|].
  split; [eapply XDISPLAY_lookup, lookup_weaken; [exact Hh1d|exact Hsub2]|].
  split; [eapply XDISPLAY_lookup, lookup_insert_eq|].
  split; [eapply XSERVER_REMOTE_lookup, lookup_weaken; [exact Hh1x|exact Hsub2]|].
  split.
  { eapply XSERVER_REMOTE_lookup. rewrite lookup_insert_ne by done.
    apply lookup_insert_eq. }
  assert (Hc1 : display_count h1 = S (display_count h))
    by (by apply display_count_step).
  split; [exact Hc1|].
  rewrite <- Hc1. by apply display_count_step.
Qed.

Lemma second_add_display_provisions_again_scenario :
  exists h1 d1 xs1 h2 d2 xs2,
    seat_xdmcp_session_add_display scenario_seat.1 scenario_seat.2 = Some (h1, Some d1) /\
    seat_xdmcp_session_add_display h1 scenario_seat.2 = Some (h2, Some d2) /\
    d1 <> d2 /\ xs1 <> xs2 /\
    XDISPLAY h2 (Some d1) = Some (display_on xs1) /\
    XDISPLAY h2 (Some d2) = Some (display_on xs2) /\
    XSERVER_REMOTE h2 (Some xs1) = Some (handle_for session_S authority_A) /\
    XSERVER_REMOTE h2 (Some xs2) = Some (handle_for session_S authority_A) /\
    display_count h1 = S (display_count scenario_seat.1) /\
    display_count h2 = S (S (display_count scenario_seat.1)).
Proof.
  apply (second_add_display_provisions_again scenario_seat.1 scenario_seat.2
           {| session := Some 2%positive |} session_S authority_A);
    vm_compute; reflexivity.
Defined.

(** C2, refuted on the scenario of the specification: with the seat at
    location 3 already owning the display at 5, a second call does not
    fail; it returns a second display, at 7, and the heap then holds two
    displays. *)
Lemma second_add_display_is_not_rejected :
  (r1 ← seat_xdmcp_session_add_display scenario_seat.1 (Some 3%positive);
   r2 ← seat_xdmcp_session_add_display r1.1 (Some 3%positive);
   Some (r1.2, display_count r1.1, r2.2, display_count r2.1))
  = Some (Some 5%positive, 1, Some 7%positive, 2).
Proof. vm_compute. reflexivity. Qed.

Lemma seat_new_fresh h session0 :
  (seat_xdmcp_session_new h session0).2 = Some (fresh_loc h).
Proof. by rewrite seat_new_eq. Qed.

Lemma seat_new_payload_ne h session0 l :
  l <> fresh_loc h ->
  payload <$> (seat_xdmcp_session_new h session0).1 !! l = payload <$> h !! l.
Proof.
  intros Hne. rewrite seat_new_eq; cbn [fst snd]. unfold store.
  rewrite lookup_alter_ne by done.
  by rewrite g_object_ref_payload, lookup_insert_ne.
Qed.

Lemma seat_new_payload_seat h session0 :
  exists held,
    payload <$> (seat_xdmcp_session_new h session0).1 !! fresh_loc h
      = Some (SeatObject {| session := held |}).
Proof.
  rewrite seat_new_eq; cbn [fst snd]. unfold store.
  eexists. rewrite lookup_alter_eq, <- option_fmap_compose.
  pose proof (g_object_ref_payload
    (<[fresh_loc h := Cell 1 (SeatObject {| session := NULL |})]> h)
    session0 (fresh_loc h)) as E.
  rewrite lookup_insert_eq in E.
  destruct (_ !! fresh_loc h) as [c|]; [done|discriminate].
Qed.

(** C3, as the code has it.  The constructor checks nothing: for every
    heap and every session pointer it returns a new seat at an unused
    location and builds no display.  The seat is bound to the session
    when the session is a live object, and holds NULL in its session
    field when the session is NULL. *)
Theorem seat_new_checks_nothing h session0 :
  exists h1 l,
    seat_xdmcp_session_new h session0 = (h1, Some l) /\
    h !! l = None /\
    is_Some (SEAT_XDMCP_SESSION h1 (Some l)) /\
    (forall p, XDISPLAY h1 p = XDISPLAY h p) /\
    (session0 = NULL ->
     SEAT_XDMCP_SESSION h1 (Some l) = Some {| session := NULL |}) /\
    (forall s, XDMCP_SESSION h session0 = Some s ->
       SEAT_XDMCP_SESSION h1 (Some l) = Some {| session := session0 |} /\
       XDMCP_SESSION h1 session0 = Some s).
Proof.
  pose proof (seat_new_fresh h session0) as Hfresh.
  pose proof (seat_new_payload_seat h session0) as [held Hheld].
  pose proof (seat_new_payload_ne h session0) as Hother.
  pose proof (seat_new_bound_live h session0) as Hlive.
  pose proof (fun s => XDMCP_SESSION_seat_new h session0 session0 s) as Hkeep.
  pose proof (seat_new_bound_NULL h) as Hnull.
  destruct (seat_xdmcp_session_new h session0) as [h1 seat] eqn:Enew.
  cbn [fst snd] in *. subst seat.
  exists h1, (fresh_loc h). split; [done|]. split; [apply fresh_loc_None|].
  split; [|split; [|split]].
  - unfold SEAT_XDMCP_SESSION. rewrite deref_lookup, Hheld. by eexists.
  - intros [l|]; [|done]. unfold XDISPLAY. rewrite !deref_lookup.
    destruct (decide (l = fresh_loc h)) as [->|Hne].
    + by rewrite Hheld, fresh_loc_None.
    + by rewrite Hother.
  - intros ->. rewrite Enew in Hnull. exact Hnull.
  - intros s Hs. eauto.
Qed.

(** C3, refuted: on the scenario heap the constructor, given NULL, does
    not fail; it returns the seat at location 3, a live seat whose
    session field is NULL. *)
Lemma seat_new_accepts_NULL :
  (seat_xdmcp_session_new scenario NULL).2 = Some 3%positive /\
  SEAT_XDMCP_SESSION (seat_xdmcp_session_new scenario NULL).1 (Some 3%positive)
    = Some {| session := NULL |}.
Proof. split; vm_compute; reflexivity. Qed.

(** Any number of requests on a seat whose session and authority are
    live succeed, and only add cells to the heap. *)
Lemma add_displays_grow n : forall h seat priv s a,
  SEAT_XDMCP_SESSION h seat = Some priv ->
  XDMCP_SESSION h (session priv) = Some s ->
  XAUTHORITY h (session_authority s) = Some a ->
  exists h', add_displays n h seat = Some h' /\ h ⊆ h'.
Proof.
  induction n as [|n IH]; intros h seat priv s a Hseat Hs Ha.
  - exists h. by split.
  - destruct (add_display_spec h seat priv s a Hseat Hs Ha)
      as (xs & d & Hne & Hxs & Hd & E).
    pose proof (add_display_grows _ _ _ _ E) as Hsub.
    cbn [add_displays]. rewrite E. cbn [mbind option_bind fst].
    set (h1 := <[d := _]> _) in *.
    destruct (IH h1 seat priv s a) as (h' & En & Hsub').
    + by eapply SEAT_XDMCP_SESSION_weaken.
    + by eapply XDMCP_SESSION_weaken.
    + by eapply XAUTHORITY_weaken.
    + exists h'. split; [exact En|]. by etrans.
Qed.

(** C4, as the code has it.  A seat constructed around a live session
    holds that session, which is not NULL, from construction on: after
    any number of add_display requests, which all succeed when the
    authority of the session is live, the session field of the seat is
    still the session given to the constructor. *)
Theorem seat_session_bound_for_life h session0 s a n :
  XDMCP_SESSION h session0 = Some s ->
  XAUTHORITY h (session_authority s) = Some a ->
  exists h1 seat h',
    seat_xdmcp_session_new h session0 = (h1, seat) /\
    session0 <> NULL /\
    SEAT_XDMCP_SESSION h1 seat = Some {| session := session0 |} /\
    add_displays n h1 seat = Some h' /\
    SEAT_XDMCP_SESSION h' seat = Some {| session := session0 |}.
Proof.
  intros Hs Ha.
  pose proof (seat_new_bound_live h session0 s Hs) as Hseat.
  pose proof (XDMCP_SESSION_seat_new h session0 _ _ Hs) as Hs1.
  pose proof (XAUTHORITY_seat_new h session0 _ _ Ha) as Ha1.
  destruct (seat_xdmcp_session_new h session0) as [h1 seat] eqn:Enew.
  cbn [fst snd] in *.
  destruct (add_displays_grow n h1 seat _ s a Hseat Hs1 Ha1) as (h' & En & Hsub).
  exists h1, seat, h'. split; [done|]. split.
  { intros ->. discriminate Hs. }
  split; [exact Hseat|]. split; [exact En|].
  by eapply SEAT_XDMCP_SESSION_weaken.
Qed.

Lemma seat_session_bound_for_life_scenario :
  exists h1 seat h',
    seat_xdmcp_session_new scenario (Some 2%positive) = (h1, seat) /\
    Some 2%positive <> NULL /\
    SEAT_XDMCP_SESSION h1 seat = Some {| session := Some 2%positive |} /\
    add_displays 3 h1 seat = Some h' /\
    SEAT_XDMCP_SESSION h' seat = Some {| session := Some 2%positive |}.
Proof.
  apply (seat_session_bound_for_life scenario (Some 2%positive)
           session_S authority_A 3); reflexivity.
Defined.

(** C4, refuted: the seat that the constructor makes of NULL in an empty
    heap is a live seat whose session field is NULL. *)
Lemma seat_session_can_be_NULL :
  session <$> SEAT_XDMCP_SESSION (seat_xdmcp_session_new ∅ NULL).1
                                 (seat_xdmcp_session_new ∅ NULL).2
    = Some NULL.
Proof. vm_compute. reflexivity. Qed.

(** C5.  On a seat whose session and authority are live, the add_display
    method succeeds and changes no cell that existed before the call: in
    particular the bound session (its authority, display number and
    protocol state, and its reference count) and the authority are after
    the call what they were before. *)
Theorem add_display_leaves_session_untouched h seat priv s a :
  SEAT_XDMCP_SESSION h seat = Some priv ->
  XDMCP_SESSION h (session priv) = Some s ->
  XAUTHORITY h (session_authority s) = Some a ->
  exists h' d,
    seat_xdmcp_session_add_display h seat = Some (h', d) /\
    (forall l c, h !! l = Some c -> h' !! l = Some c) /\
    (forall l, session priv = Some l -> h' !! l = h !! l) /\
    (forall l, session_authority s = Some l -> h' !! l = h !! l) /\
    XDMCP_SESSION h' (session priv) = Some s /\
    XAUTHORITY h' (session_authority s) = Some a.
Proof.
  intros Hseat Hs Ha.
  destruct (add_display_spec h seat priv s a Hseat Hs Ha)
    as (xs & d & Hne & Hxs & Hd & E).
  pose proof (add_display_grows _ _ _ _ E) as Hsub.
  set (h' := <[d := _]> _) in *.
  assert (Hold : forall l c, h !! l = Some c -> h' !! l = Some c).
  { intros l c Hl. by eapply lookup_weaken. }
  assert (Hlive : forall p o l, deref h p = Some o -> p = Some l -> h' !! l = h !! l).
  { intros p o l (l' & rc & -> & Hl)%deref_Some [= ->].
    rewrite Hl. by apply Hold. }
  exists h', (Some d). split; [exact E|]. split; [exact Hold|].
  split; [|split; [|split]].
  - unfold XDMCP_SESSION in Hs.
    destruct (deref h (session priv)) as [o|] eqn:Ed; [|done]. eauto.
  - unfold XAUTHORITY in Ha.
    destruct (deref h (session_authority s)) as [o|] eqn:Ed; [|done]. eauto.
  - by eapply XDMCP_SESSION_weaken.
  - by eapply XAUTHORITY_weaken.
Qed.

Lemma add_display_leaves_session_untouched_scenario :
  exists h' d,
    seat_xdmcp_session_add_display scenario_seat.1 scenario_seat.2 = Some (h', d) /\
    (forall l c, scenario_seat.1 !! l = Some c -> h' !! l = Some c) /\
    (forall l, Some 2%positive = Some l -> h' !! l = scenario_seat.1 !! l) /\
    (forall l, Some 1%positive = Some l -> h' !! l = scenario_seat.1 !! l) /\
    XDMCP_SESSION h' (Some 2%positive) = Some session_S /\
    XAUTHORITY h' (Some 1%positive) = Some authority_A.
Proof.
  apply (add_display_leaves_session_untouched scenario_seat.1 scenario_seat.2
           {| session := Some 2%positive |} session_S authority_A);
    vm_compute; reflexivity.
Defined.

(** C6.  On a seat whose session and authority are live, the add_display
    method succeeds and, when it returns, the handle it built at a
    location unused before has exactly one reference; the display
    returned is backed by that handle; the private data of the seat is
    what it was and does not point to the handle; and, in a heap without
    dangling pointers, the display is the only object that points to the
    handle. *)
Theorem add_display_hands_handle_to_display h seat priv s a :
  SEAT_XDMCP_SESSION h seat = Some priv ->
  XDMCP_SESSION h (session priv) = Some s ->
  XAUTHORITY h (session_authority s) = Some a ->
  exists h' d xs,
    seat_xdmcp_session_add_display h seat = Some (h', Some d) /\
    h !! xs = None /\
    h' !! xs = Some (Cell 1 (XServerObject (handle_for s a))) /\
    h' !! d = Some (Cell 1 (DisplayObject (display_on xs))) /\
    SEAT_XDMCP_SESSION h' seat = Some priv /\
    session priv <> Some xs /\
    (heap_closed h ->
     forall l c, h' !! l = Some c -> xs ∈ references (payload c) -> l = d).
Proof.
  intros Hseat Hs Ha.
  destruct (add_display_spec h seat priv s a Hseat Hs Ha)
    as (xs & d & Hne & Hxs & Hd & E).
  pose proof (add_display_grows _ _ _ _ E) as Hsub.
  set (h' := <[d := _]> _) in *.
  assert (Hdead : forall p o, deref h p = Some o -> p <> Some xs).
  { intros p o (l & rc & -> & Hl)%deref_Some [= ->]. by rewrite Hxs in Hl. }
  exists h', d, xs. split; [exact E|]. split; [exact Hxs|].
  split; [|split; [|split; [|split]]].
  - unfold h'. rewrite lookup_insert_ne by done. apply lookup_insert_eq.
  - apply lookup_insert_eq.
  - by eapply SEAT_XDMCP_SESSION_weaken.
  - unfold XDMCP_SESSION in Hs.
    destruct (deref h (session priv)) as [o|] eqn:Ed; [|done]. eauto.
  - intros Hclosed l c Hl Hin.
    destruct (decide (l = d)) as [->|Hld]; [done|]. exfalso.
    unfold h' in Hl. rewrite lookup_insert_ne in Hl by done.
    destruct (decide (l = xs)) as [->|Hlx].
    + rewrite lookup_insert_eq in Hl. injection Hl as <-. simpl in Hin.
      unfold XAUTHORITY in Ha.
      destruct (deref h (session_authority s)) as [o|] eqn:Ed; [|done].
      apply (Hdead _ _ Ed).
      destruct (session_authority s) as [la|]; simpl in Hin; [|by inversion Hin].
      apply list_elem_of_singleton in Hin. by subst.
    + rewrite lookup_insert_ne in Hl by done.
      pose proof (Hclosed l c Hl) as Hrefs.
      rewrite Forall_forall in Hrefs.
      destruct (Hrefs xs Hin) as [c' Hc']. by rewrite Hxs in Hc'.
Qed.

Lemma scenario_seat_closed : heap_closed scenario_seat.1.
Proof. unfold heap_closed. apply (bool_decide_unpack _). vm_compute. exact I. Qed.

Lemma add_display_hands_handle_to_display_scenario :
  heap_closed scenario_seat.1 /\
  exists h' d xs,
    seat_xdmcp_session_add_display scenario_seat.1 scenario_seat.2
      = Some (h', Some d) /\
    scenario_seat.1 !! xs = None /\
    h' !! xs = Some (Cell 1 (XServerObject (handle_for session_S authority_A))) /\
    h' !! d = Some (Cell 1 (DisplayObject (display_on xs))) /\
    SEAT_XDMCP_SESSION h' scenario_seat.2 = Some {| session := Some 2%positive |} /\
    Some 2%positive <> Some xs /\
    (heap_closed scenario_seat.1 ->
     forall l c, h' !! l = Some c -> xs ∈ references (payload c) -> l = d).
Proof.
  split; [exact scenario_seat_closed|].
  apply (add_display_hands_handle_to_display scenario_seat.1 scenario_seat.2
           {| session := Some 2%positive |} session_S authority_A);
    vm_compute; reflexivity.
Defined.

End SeatXDMCPFacts.

(** ** Facts about the user record *)

Module UserFacts.

Import User.

Implicit Types (s : state) (user : ptr) (l : loc) (priv : LdmUserPrivate).

Lemma LDM_USER_Some s user l priv :
  LDM_USER s user = Some (l, priv) <->
  user = Some l /\ exists rc, heap s !! l = Some (Cell rc (UserObject priv)).
Proof.
  unfold LDM_USER. split.
  - destruct user as [l'|]; simpl; [|done].
    destruct (heap s !! l') as [[rc [|priv']]|] eqn:E; simpl; [done| |done].
    intros [= -> ->]. split; [done|]. by exists rc.
  - intros [-> [rc Hl]]. simpl. by rewrite Hl.
Qed.

Lemma LDM_IS_USER_false s user :
  LDM_IS_USER s user = false <-> LDM_USER s user = None.
Proof. unfold LDM_IS_USER. by destruct (LDM_USER s user). Qed.

(** C7.  On a live user, the display name accessor returns the real name
    when that field is not NULL and the name otherwise; the state is not
    changed. *)
Theorem display_name_falls_back_to_name s user l priv :
  LDM_USER s user = Some (l, priv) ->
  (forall r, real_name priv = Some r ->
     ldm_user_get_display_name s user = (s, Some r)) /\
  (real_name priv = None ->
     ldm_user_get_display_name s user = (s, name priv)).
Proof.
  intros Huser. unfold ldm_user_get_display_name, g_return_val_if_fail.
  rewrite Huser. split.
  - by intros r ->.
  - by intros ->.
Qed.

Lemma display_name_falls_back_to_name_alice :
  (forall r, real_name alice_priv = Some r ->
     ldm_user_get_display_name alice_created.1 alice_created.2
       = (alice_created.1, Some r)) /\
  (real_name alice_priv = None ->
     ldm_user_get_display_name alice_created.1 alice_created.2
       = (alice_created.1, name alice_priv)).
Proof.
  apply (display_name_falls_back_to_name alice_created.1 alice_created.2
           2%positive alice_priv).
  vm_compute. reflexivity.
Defined.

(** A user created with a real name displays it. *)
Example display_name_prefers_real_name :
  let r := ldm_user_new greeter_process (Some 1%positive) (Some "bob")
                        (Some "Robert") None None true in
  (ldm_user_get_display_name r.1 r.2).2 = Some "Robert".
Proof. vm_compute. reflexivity. Qed.

Section defaults.

Variable lookup : list (ptr * gchar_p) -> ptr -> gchar_p -> defaults -> bool * defaults.

(** [get_defaults] with the guard set: nothing happens. *)
Lemma get_defaults_cached s l priv :
  have_defaults priv = true -> get_defaults lookup s l priv = (s, priv).
Proof. unfold get_defaults. by intros ->. Qed.

(** [get_defaults] with the guard unset: one request goes out; the out
    parameters are stored, and the guard is set exactly when the
    request succeeded. *)
Lemma get_defaults_lookup s user l priv ok out :
  LDM_USER s user = Some (l, priv) ->
  have_defaults priv = false ->
  lookup (lookups s) (greeter priv) (name priv) (get_out priv) = (ok, out) ->
  exists s1 priv1,
    get_defaults lookup s l priv = (s1, priv1) /\
    LDM_USER s1 user = Some (l, priv1) /\
    have_defaults priv1 = ok /\
    get_out priv1 = out /\
    greeter priv1 = greeter priv /\ name priv1 = name priv /\
    lookups s1 = (greeter priv, name priv) :: lookups s.
Proof.
  intros (-> & rc & Hl)%LDM_USER_Some Hguard Hreply.
  unfold get_defaults. rewrite Hguard, Hreply.
  eexists _, _. split; [reflexivity|]. split.
  { apply LDM_USER_Some. split; [done|]. exists rc. cbn [heap]. unfold store.
    by rewrite lookup_alter_eq, Hl. }
  destruct out as [[lang lay] sess]. by destruct ok.
Qed.

Lemma ldm_user_get_default_eq prop s user l priv :
  LDM_USER s user = Some (l, priv) ->
  ldm_user_get_default lookup prop s user =
    ((get_defaults lookup s l priv).1,
     cached_default prop (get_defaults lookup s l priv).2).
Proof.
  intros Huser.
  destruct prop; cbn [ldm_user_get_default cached_default];
    unfold ldm_user_get_language, ldm_user_get_layout, ldm_user_get_session,
      g_return_val_if_fail;
    rewrite Huser; by destruct (get_defaults lookup s l priv).
Qed.

(** C8.  On a live user whose guard is set, or whose defaults request
    succeeds, an accessor of the cached defaults leaves the guard set
    and returns the cached value; any accessor of the cached defaults
    called after it returns the cached value and leaves the state,
    and so the list of requests sent, as it is. *)
Theorem defaults_populated_once s user l priv prop prop' :
  LDM_USER s user = Some (l, priv) ->
  have_defaults priv = true \/
    (lookup (lookups s) (greeter priv) (name priv) (get_out priv)).1 = true ->
  exists s1 priv1,
    (ldm_user_get_default lookup prop s user).1 = s1 /\
    LDM_USER s1 user = Some (l, priv1) /\
    have_defaults priv1 = true /\
    (ldm_user_get_default lookup prop s user).2 = cached_default prop priv1 /\
    ldm_user_get_default lookup prop' s1 user = (s1, cached_default prop' priv1) /\
    ldm_user_get_default lookup prop s1 user
      = (s1, (ldm_user_get_default lookup prop s user).2).
Proof.
  intros Huser Hguard.
  assert (exists s1 priv1,
            get_defaults lookup s l priv = (s1, priv1) /\
            LDM_USER s1 user = Some (l, priv1) /\
            have_defaults priv1 = true) as (s1 & priv1 & E & Huser1 & Hguard1).
  { destruct (have_defaults priv) eqn:Hd.
    - exists s, priv. by rewrite get_defaults_cached.
    - destruct Hguard as [?|Hok]; [done|].
      destruct (lookup (lookups s) (greeter priv) (name priv) (get_out priv))
        as [ok out] eqn:Hreply.
      simpl in Hok. subst ok.
      destruct (get_defaults_lookup s user l priv true out Huser Hd Hreply)
        as (s1 & priv1 & E & Huser1 & Hguard1 & _).
      by exists s1, priv1. }
  exists s1, priv1.
  rewrite (ldm_user_get_default_eq prop s user l priv Huser), E. cbn [fst snd].
  rewrite !(ldm_user_get_default_eq _ s1 user l priv1 Huser1).
  by rewrite (get_defaults_cached s1 l priv1 Hguard1).
Qed.

(** C9.  On a live user whose guard is unset, an accessor of the cached
    defaults whose request fails leaves the guard unset, and the next
    accessor of the cached defaults sends the request again. *)
Theorem failed_lookup_is_not_cached s user l priv prop prop' out :
  LDM_USER s user = Some (l, priv) ->
  have_defaults priv = false ->
  lookup (lookups s) (greeter priv) (name priv) (get_out priv) = (false, out) ->
  exists s1 priv1,
    (ldm_user_get_default lookup prop s user).1 = s1 /\
    LDM_USER s1 user = Some (l, priv1) /\
    have_defaults priv1 = false /\
    lookups s1 = (greeter priv, name priv) :: lookups s /\
    lookups (ldm_user_get_default lookup prop' s1 user).1
      = (greeter priv, name priv) :: (greeter priv, name priv) :: lookups s.
Proof.
  intros Huser Hguard Hreply.
  destruct (get_defaults_lookup s user l priv false out Huser Hguard Hreply)
    as (s1 & priv1 & E & Huser1 & Hguard1 & Hout & Hg & Hn & Hlog).
  exists s1, priv1.
  rewrite (ldm_user_get_default_eq prop s user l priv Huser), E. cbn [fst snd].
  split; [done|]. split; [done|]. split; [done|]. split; [done|].
  rewrite (ldm_user_get_default_eq prop' s1 user l priv1 Huser1). cbn [fst].
  destruct (lookup (lookups s1) (greeter priv1) (name priv1) (get_out priv1))
    as [ok' out'] eqn:Hreply'.
  destruct (get_defaults_lookup s1 user l priv1 ok' out' Huser1 Hguard1 Hreply')
    as (s2 & priv2 & E2 & _ & _ & _ & _ & _ & Hlog2).
  rewrite E2. cbn [fst]. by rewrite Hlog2, Hlog, Hg, Hn.
Qed.

(** C10.  When the argument is not a live user, every getter returns
    NULL (FALSE for the logged-in flag) and every setter returns at
    once; the only trace is the critical warning of the failed check:
    the objects of the process and the requests sent are unchanged. *)
Theorem accessors_reject_invalid_user s user :
  LDM_IS_USER s user = false ->
  (heap (g_critical s) = heap s /\ lookups (g_critical s) = lookups s) /\
  ldm_user_get_name s user = (g_critical s, None) /\
  ldm_user_get_real_name s user = (g_critical s, None) /\
  ldm_user_get_display_name s user = (g_critical s, None) /\
  ldm_user_get_home_directory s user = (g_critical s, None) /\
  ldm_user_get_image s user = (g_critical s, None) /\
  ldm_user_get_language lookup s user = (g_critical s, None) /\
  ldm_user_get_layout lookup s user = (g_critical s, None) /\
  ldm_user_get_session lookup s user = (g_critical s, None) /\
  ldm_user_get_logged_in s user = (g_critical s, false) /\
  (forall v, ldm_user_set_name s user v = g_critical s) /\
  (forall v, ldm_user_set_real_name s user v = g_critical s) /\
  (forall v, ldm_user_set_home_directory s user v = g_critical s) /\
  (forall v, ldm_user_set_image s user v = g_critical s) /\
  (forall v, ldm_user_set_logged_in s user v = g_critical s).
Proof.
  intros Hinvalid%LDM_IS_USER_false.
  unfold ldm_user_get_name, ldm_user_get_real_name, ldm_user_get_display_name,
    ldm_user_get_home_directory, ldm_user_get_image, ldm_user_get_language,
    ldm_user_get_layout, ldm_user_get_session, ldm_user_get_logged_in,
    ldm_user_set_name, ldm_user_set_real_name, ldm_user_set_home_directory,
    ldm_user_set_image, ldm_user_set_logged_in,
    g_return_val_if_fail, g_return_if_fail.
  rewrite Hinvalid. repeat split.
Qed.

End defaults.

Lemma defaults_populated_once_alice :
  exists s1 priv1,
    (ldm_user_get_default daemon PROP_LANGUAGE alice_retry (Some 2%positive)).1 = s1 /\
    LDM_USER s1 (Some 2%positive) = Some (2%positive, priv1) /\
    have_defaults priv1 = true /\
    (ldm_user_get_default daemon PROP_LANGUAGE alice_retry (Some 2%positive)).2
      = cached_default PROP_LANGUAGE priv1 /\
    ldm_user_get_default daemon PROP_LAYOUT s1 (Some 2%positive)
      = (s1, cached_default PROP_LAYOUT priv1) /\
    ldm_user_get_default daemon PROP_LANGUAGE s1 (Some 2%positive)
      = (s1, (ldm_user_get_default daemon PROP_LANGUAGE alice_retry (Some 2%positive)).2).
Proof.
  apply (defaults_populated_once daemon alice_retry (Some 2%positive) 2%positive
           alice_priv PROP_LANGUAGE PROP_LAYOUT).
  - vm_compute. reflexivity.
  - right. vm_compute. reflexivity.
Defined.

Lemma failed_lookup_is_not_cached_alice :
  exists s1 priv1,
    (ldm_user_get_default daemon PROP_LAYOUT alice_created.1 (Some 2%positive)).1 = s1 /\
    LDM_USER s1 (Some 2%positive) = Some (2%positive, priv1) /\
    have_defaults priv1 = false /\
    lookups s1 = (greeter alice_priv, name alice_priv) :: lookups alice_created.1 /\
    lookups (ldm_user_get_default daemon PROP_SESSION s1 (Some 2%positive)).1
      = (greeter alice_priv, name alice_priv) :: (greeter alice_priv, name alice_priv)
          :: lookups alice_created.1.
Proof.
  apply (failed_lookup_is_not_cached daemon alice_created.1 (Some 2%positive)
           2%positive alice_priv PROP_LAYOUT PROP_SESSION (None, None, None));
    vm_compute; reflexivity.
Defined.

(** The greeter object is not a user, and neither is NULL. *)
Lemma accessors_reject_invalid_user_greeter :
  LDM_IS_USER alice_created.1 (Some 1%positive) = false /\
  ldm_user_get_name alice_created.1 (Some 1%positive)
    = (g_critical alice_created.1, None) /\
  ldm_user_set_logged_in alice_created.1 (Some 1%positive) true
    = g_critical alice_created.1.
Proof.
  assert (H : LDM_IS_USER alice_created.1 (Some 1%positive) = false)
    by (vm_compute; reflexivity).
  split; [exact H|].
  pose proof (accessors_reject_invalid_user daemon alice_created.1
                (Some 1%positive) H) as A.
  split; [apply A|]. apply A.
Defined.

End UserFacts.

(** ** More facts about the XDMCP session seat *)

Module SeatXDMCPLifecycle.

Import SeatXDMCP GObjectFacts SeatXDMCPFacts.

Implicit Types (h : heap) (p seat : ptr) (l : loc) (o : object).

(** The constructor takes one reference on a live session and touches
    nothing else: the new seat, at a location unused before, has one
    reference and is bound to the session; the session keeps its data and
    counts one reference more; every other cell is as it was. *)
Theorem seat_new_takes_one_reference h ls rc s :
  h !! ls = Some (Cell rc (SessionObject s)) ->
  exists h1 l,
    seat_xdmcp_session_new h (Some ls) = (h1, Some l) /\
    h !! l = None /\
    h1 !! l = Some (Cell 1 (SeatObject {| session := Some ls |})) /\
    h1 !! ls = Some (Cell (S rc) (SessionObject s)) /\
    (forall l', l' <> l -> l' <> ls -> h1 !! l' = h !! l').
Proof.
  intros Hls.
  assert (Hne : ls <> fresh_loc h) by (by eapply fresh_loc_ne).
  eexists _, (fresh_loc h). split.
  { rewrite seat_new_eq. cbv zeta.
    rewrite (g_object_ref_live _ ls (Cell rc (SessionObject s)))
      by (by rewrite lookup_insert_ne).
    cbn [fst snd ref_count payload]. reflexivity. }
  unfold store. split; [apply fresh_loc_None|]. split; [|split].
  - by rewrite lookup_alter_eq, lookup_insert_ne, lookup_insert_eq.
  - rewrite lookup_alter_ne by done. apply lookup_insert_eq.
  - intros l' Hl Hls'. rewrite lookup_alter_ne by done.
    by rewrite !lookup_insert_ne.
Qed.

Lemma seat_new_takes_one_reference_scenario :
  exists h1 l,
    seat_xdmcp_session_new scenario (Some 2%positive) = (h1, Some l) /\
    scenario !! l = None /\
    h1 !! l = Some (Cell 1 (SeatObject {| session := Some 2%positive |})) /\
    h1 !! 2%positive = Some (Cell 2 (SessionObject session_S)) /\
    (forall l', l' <> l -> l' <> 2%positive -> h1 !! l' = scenario !! l').
Proof.
  apply (seat_new_takes_one_reference scenario 2%positive 1 session_S).
  vm_compute. reflexivity.
Defined.

(** Given NULL, the constructor only adds the seat: no reference count
    changes and the heap grows by the one cell of a seat bound to NULL. *)
Theorem seat_new_NULL_adds_only_the_seat h :
  exists l,
    h !! l = None /\
    seat_xdmcp_session_new h NULL
      = (<[l := Cell 1 (SeatObject {| session := NULL |})]> h, Some l).
Proof.
  exists (fresh_loc h). split; [apply fresh_loc_None|].
  rewrite seat_new_eq. cbv zeta. rewrite g_object_ref_NULL. cbn [fst snd].
  f_equal. unfold store. apply map_eq. intros l'.
  destruct (decide (l' = fresh_loc h)) as [->|Hne].
  - by rewrite lookup_alter_eq, !lookup_insert_eq.
  - by rewrite lookup_alter_ne.
Qed.

(** Every request adds one display and one handle: after [n] requests
    on a seat whose session and authority are live, the heap holds [n]
    displays and [2 * n] cells more than before, and every cell that
    existed is as it was. *)
Theorem add_displays_count n : forall h seat priv s a,
  SEAT_XDMCP_SESSION h seat = Some priv ->
  XDMCP_SESSION h (session priv) = Some s ->
  XAUTHORITY h (session_authority s) = Some a ->
  exists h',
    add_displays n h seat = Some h' /\
    display_count h' = n + display_count h /\
    size h' = 2 * n + size h /\
    (forall l c, h !! l = Some c -> h' !! l = Some c).
Proof.
  induction n as [|n IH]; intros h seat priv s a Hseat Hs Ha.
  - exists h. by repeat split.
  - destruct (add_display_spec h seat priv s a Hseat Hs Ha)
      as (xs & d & Hne & Hxs & Hd & E).
    pose proof (add_display_grows _ _ _ _ E) as Hsub.
    assert (Hc : display_count (<[d := Cell 1 (DisplayObject (display_on xs))]>
                   (<[xs := Cell 1 (XServerObject (handle_for s a))]> h))
                 = S (display_count h)) by (by apply display_count_step).
    assert (Hsz : size (<[d := Cell 1 (DisplayObject (display_on xs))]>
                   (<[xs := Cell 1 (XServerObject (handle_for s a))]> h))
                  = S (S (size h))).
    { rewrite map_size_insert_None by (by rewrite lookup_insert_ne).
      by rewrite map_size_insert_None. }
    cbn [add_displays]. rewrite E. cbn [mbind option_bind fst].
    set (h1 := <[d := _]> _) in *.
    destruct (IH h1 seat priv s a) as (h' & En & Hcount & Hsize & Hold).
    + by eapply SEAT_XDMCP_SESSION_weaken.
    + by eapply XDMCP_SESSION_weaken.
    + by eapply XAUTHORITY_weaken.
    + exists h'. split; [exact En|]. split; [lia|]. split; [lia|].
      intros l c Hl. apply Hold. by eapply lookup_weaken.
Qed.

Lemma add_displays_count_scenario :
  exists h',
    add_displays 3 scenario_seat.1 scenario_seat.2 = Some h' /\
    display_count h' = 3 + display_count scenario_seat.1 /\
    size h' = 2 * 3 + size scenario_seat.1 /\
    (forall l c, scenario_seat.1 !! l = Some c -> h' !! l = Some c).
Proof.
  apply (add_displays_count 3 scenario_seat.1 scenario_seat.2
           {| session := Some 2%positive |} session_S authority_A);
    vm_compute; reflexivity.
Defined.

End SeatXDMCPLifecycle.

(** ** More facts about the user record *)

Module UserCallsFacts.

Import User UserFacts UserCalls.

Implicit Types (s : state) (user : ptr) (l : loc) (priv : LdmUserPrivate)
  (f : string_field) (v : gchar_p).

(** *** Assignments to the private data *)

Lemma set_priv_live s l priv priv' :
  LDM_USER s (Some l) = Some (l, priv) ->
  LDM_USER (set_priv s l priv') (Some l) = Some (l, priv').
Proof.
  intros (_ & rc & Hl)%LDM_USER_Some. apply LDM_USER_Some. split; [done|].
  exists rc. unfold set_priv, with_heap, store. cbn [heap].
  by rewrite lookup_alter_eq, Hl.
Qed.

Lemma set_priv_other s l priv' user :
  user <> Some l -> LDM_USER (set_priv s l priv') user = LDM_USER s user.
Proof.
  intros Hne. unfold LDM_USER, set_priv, with_heap, store. cbn [heap].
  destruct user as [l'|]; [|done]. simpl.
  rewrite lookup_alter_ne; [done|]. congruence.
Qed.

Lemma set_priv_log s l priv' :
  criticals (set_priv s l priv') = criticals s /\
  lookups (set_priv s l priv') = lookups s.
Proof. done. Qed.

Lemma set_priv_ref_count s l priv' l' :
  ref_count <$> heap (set_priv s l priv') !! l' = ref_count <$> heap s !! l'.
Proof.
  unfold set_priv, with_heap, store. cbn [heap].
  destruct (decide (l = l')) as [->|Hne].
  - rewrite lookup_alter_eq. by destruct (heap s !! l').
  - by rewrite lookup_alter_ne.
Qed.

(** *** The plain accessors on a live user *)

Lemma get_string_live f s user l priv :
  LDM_USER s user = Some (l, priv) ->
  ldm_user_get_string f s user = (s, string_of f priv).
Proof.
  intros Huser.
  destruct f; cbn [ldm_user_get_string string_of];
    unfold ldm_user_get_name, ldm_user_get_real_name, ldm_user_get_home_directory,
      ldm_user_get_image, g_return_val_if_fail; by rewrite Huser.
Qed.

Lemma set_string_live f s user l priv v :
  LDM_USER s user = Some (l, priv) ->
  ldm_user_set_string f s user v = set_priv s l (with_string f v priv).
Proof.
  intros Huser.
  destruct f; cbn [ldm_user_set_string with_string];
    unfold ldm_user_set_name, ldm_user_set_real_name, ldm_user_set_home_directory,
      ldm_user_set_image, g_return_if_fail, g_strdup; by rewrite Huser.
Qed.

Lemma get_logged_in_live s user l priv :
  LDM_USER s user = Some (l, priv) ->
  ldm_user_get_logged_in s user = (s, logged_in priv).
Proof.
  intros Huser. unfold ldm_user_get_logged_in, g_return_val_if_fail.
  by rewrite Huser.
Qed.

Lemma set_logged_in_live s user l priv b :
  LDM_USER s user = Some (l, priv) ->
  ldm_user_set_logged_in s user b = set_priv s l (set_logged_in b priv).
Proof.
  intros Huser. unfold ldm_user_set_logged_in, g_return_if_fail.
  by rewrite Huser.
Qed.


Lemma LDM_USER_pointer s user l priv :
  LDM_USER s user = Some (l, priv) -> user = Some l.
Proof. by intros [-> _]%LDM_USER_Some. Qed.



(** A setter changes the field it names and nothing else: the getters of
    the other fields return what they returned before, other users are
    untouched, no reference count changes, nothing is logged and no
    request is sent. *)
Theorem setter_changes_one_field s user l priv :
  LDM_USER s user = Some (l, priv) ->
  (forall f f' v, f <> f' ->
     (ldm_user_get_string f' (ldm_user_set_string f s user v) user).2
       = (ldm_user_get_string f' s user).2) /\
  (forall f v,
     (ldm_user_get_logged_in (ldm_user_set_string f s user v) user).2
       = (ldm_user_get_logged_in s user).2) /\
  (forall f b,
     (ldm_user_get_string f (ldm_user_set_logged_in s user b) user).2
       = (ldm_user_get_string f s user).2) /\
  (forall s', (exists f v, s' = ldm_user_set_string f s user v) \/
              (exists b, s' = ldm_user_set_logged_in s user b) ->
     (forall other, other <> user -> LDM_USER s' other = LDM_USER s other) /\
     (forall l', ref_count <$> heap s' !! l' = ref_count <$> heap s !! l') /\
     criticals s' = criticals s /\ lookups s' = lookups s).
Proof.
  intros Huser. pose proof (LDM_USER_pointer _ _ _ _ Huser) as ->.
  split; [|split; [|split]].
  - intros f f' v Hne. rewrite (set_string_live f s _ l priv v Huser).
    rewrite (get_string_live f' _ _ l (with_string f v priv))
      by (by eapply set_priv_live).
    rewrite (get_string_live f' s _ l priv Huser).
    by destruct f, f'.
  - intros f v. rewrite (set_string_live f s _ l priv v Huser).
    rewrite (get_logged_in_live _ _ l (with_string f v priv))
      by (by eapply set_priv_live).
    rewrite (get_logged_in_live s _ l priv Huser). by destruct f.
  - intros f b. rewrite (set_logged_in_live s _ l priv b Huser).
    rewrite (get_string_live f _ _ l (set_logged_in b priv))
      by (by eapply set_priv_live).
    rewrite (get_string_live f s _ l priv Huser). by destruct f.
  - intros s' [(f & v & ->)|(b & ->)].
    + rewrite (set_string_live f s _ l priv v Huser).
      split; [intros other Hne; by apply set_priv_other|].
      split; [intros l'; apply set_priv_ref_count|]. apply set_priv_log.
    + rewrite (set_logged_in_live s _ l priv b Huser).
      split; [intros other Hne; by apply set_priv_other|].
      split; [intros l'; apply set_priv_ref_count|]. apply set_priv_log.
Qed.

Lemma setter_changes_one_field_alice :
  (forall f f' v, f <> f' ->
     (ldm_user_get_string f' (ldm_user_set_string f alice_created.1 alice_created.2 v)
                          alice_created.2).2
       = (ldm_user_get_string f' alice_created.1 alice_created.2).2) /\
  (forall f v,
     (ldm_user_get_logged_in (ldm_user_set_string f alice_created.1 alice_created.2 v)
                             alice_created.2).2
       = (ldm_user_get_logged_in alice_created.1 alice_created.2).2) /\
  (forall f b,
     (ldm_user_get_string f (ldm_user_set_logged_in alice_created.1 alice_created.2 b)
                          alice_created.2).2
       = (ldm_user_get_string f alice_created.1 alice_created.2).2) /\
  (forall s', (exists f v, s' = ldm_user_set_string f alice_created.1 alice_created.2 v) \/
              (exists b, s' = ldm_user_set_logged_in alice_created.1 alice_created.2 b) ->
     (forall other, other <> alice_created.2 ->
        LDM_USER s' other = LDM_USER alice_created.1 other) /\
     (forall l', ref_count <$> heap s' !! l'
                 = ref_count <$> heap alice_created.1 !! l') /\
     criticals s' = criticals alice_created.1 /\
     lookups s' = lookups alice_created.1).
Proof.
  apply (setter_changes_one_field alice_created.1 alice_created.2 2%positive alice_priv).
  vm_compute. reflexivity.
Defined.





Section defaults.

Variable lookup : list (ptr * gchar_p) -> ptr -> gchar_p -> defaults -> bool * defaults.

(** [get_defaults] with the guard unset, in full. *)
Lemma get_defaults_unset s l priv ok out :
  have_defaults priv = false ->
  lookup (lookups s) (greeter priv) (name priv) (get_out priv) = (ok, out) ->
  get_defaults lookup s l priv
    = (let priv2 := if ok then set_have_defaults true (set_out out priv)
                    else set_out out priv in
       ({| heap := store (heap s) l (fun _ => UserObject priv2);
           criticals := criticals s;
           lookups := (greeter priv, name priv) :: lookups s |}, priv2)).
Proof. intros Hguard Hreply. unfold get_defaults. by rewrite Hguard, Hreply. Qed.

(** The setters never touch the defaults cache: on a user whose guard is
    set, an accessor of the cached defaults called after any string
    setter, the setter of the name included, still returns the value
    cached before, and sends no request. *)
Theorem setters_keep_cached_defaults s user l priv :
  LDM_USER s user = Some (l, priv) ->
  have_defaults priv = true ->
  forall f v prop,
    ldm_user_get_default lookup prop (ldm_user_set_string f s user v) user
      = (ldm_user_set_string f s user v, cached_default prop priv).
Proof.
  intros Huser Hguard f v prop.
  pose proof (LDM_USER_pointer _ _ _ _ Huser) as ->.
  rewrite (set_string_live f s _ l priv v Huser).
  pose proof (set_priv_live s l priv (with_string f v priv) Huser) as Huser'.
  rewrite (ldm_user_get_default_eq lookup prop _ _ l _ Huser').
  rewrite get_defaults_cached by (by destruct f).
  by destruct f, prop.
Qed.

(** The first read of a default on a user whose guard is unset sends one
    request, for the current name through the greeter of the user, and
    returns what the request left in the out parameter of that default,
    whether the request succeeded or not; nothing is logged and other
    users are untouched. *)
Theorem first_read_returns_the_reply s user l priv ok out :
  LDM_USER s user = Some (l, priv) ->
  have_defaults priv = false ->
  lookup (lookups s) (greeter priv) (name priv) (get_out priv) = (ok, out) ->
  exists s1,
    ldm_user_get_language lookup s user = (s1, out.1.1) /\
    ldm_user_get_layout lookup s user = (s1, out.1.2) /\
    ldm_user_get_session lookup s user = (s1, out.2) /\
    lookups s1 = (greeter priv, name priv) :: lookups s /\
    criticals s1 = criticals s /\
    (forall other, other <> user -> LDM_USER s1 other = LDM_USER s other).
Proof.
  intros Huser Hguard Hreply.
  pose proof (get_defaults_unset s l priv ok out Hguard Hreply) as E.
  cbv zeta in E.
  pose proof (fun prop => ldm_user_get_default_eq lookup prop s user l priv Huser) as Hget.
  pose proof (Hget PROP_LANGUAGE) as Hlang.
  pose proof (Hget PROP_LAYOUT) as Hlay.
  pose proof (Hget PROP_SESSION) as Hsess.
  cbn [ldm_user_get_default cached_default] in Hlang, Hlay, Hsess.
  rewrite E in Hlang, Hlay, Hsess. cbn [fst snd] in Hlang, Hlay, Hsess.
  eexists. split; [rewrite Hlang; f_equal; by destruct ok|].
  split; [rewrite Hlay; f_equal; by destruct ok|].
  split; [rewrite Hsess; f_equal; by destruct ok|].
  split; [done|]. split; [done|].
  intros other Hne. pose proof (LDM_USER_pointer _ _ _ _ Huser) as ->.
  unfold LDM_USER. cbn [heap]. destruct other as [l'|]; [|done]. simpl.
  unfold store. rewrite lookup_alter_ne; [done|]. congruence.
Qed.


End defaults.

(** *** Sequences of calls *)

Section sequences.

Variable lookup : list (ptr * gchar_p) -> ptr -> gchar_p -> defaults -> bool * defaults.

(** What one call can do to the state: it sends at most one request, it
    logs one critical exactly when its argument is not a live user, and it
    either leaves the heap alone or replaces the private data of one live
    user, keeping the greeter of that user and, when the guard is set,
    the guard and the cached defaults. *)
Lemma perform_effect s user c :
  lookups s `suffix_of` lookups (perform lookup s user c) /\
  length (lookups (perform lookup s user c)) <= S (length (lookups s)) /\
  criticals (perform lookup s user c)
    = (if LDM_IS_USER s user then criticals s else S (criticals s)) /\
  (heap (perform lookup s user c) = heap s \/
   exists l priv priv1,
     LDM_USER s (Some l) = Some (l, priv) /\
     heap (perform lookup s user c) = store (heap s) l (fun _ => UserObject priv1) /\
     greeter priv1 = greeter priv /\
     (have_defaults priv = true ->
      have_defaults priv1 = true /\ get_out priv1 = get_out priv)).
Proof.
  unfold LDM_IS_USER.
  destruct (LDM_USER s user) as [[l priv]|] eqn:Huser.
  - pose proof (LDM_USER_pointer _ _ _ _ Huser) as ->.
    assert (Hsame : forall s', s' = s ->
      lookups s `suffix_of` lookups s' /\
      length (lookups s') <= S (length (lookups s)) /\
      criticals s' = criticals s /\
      (heap s' = heap s \/
       exists l0 priv0 priv1,
         LDM_USER s (Some l0) = Some (l0, priv0) /\
         heap s' = store (heap s) l0 (fun _ => UserObject priv1) /\
         greeter priv1 = greeter priv0 /\
         (have_defaults priv0 = true ->
          have_defaults priv1 = true /\ get_out priv1 = get_out priv0))).
    { intros s' ->. split; [done|]. split; [lia|]. split; [done|]. by left. }
    assert (Hset : forall priv1,
      greeter priv1 = greeter priv ->
      have_defaults priv1 = have_defaults priv ->
      get_out priv1 = get_out priv ->
      lookups s `suffix_of` lookups (set_priv s l priv1) /\
      length (lookups (set_priv s l priv1)) <= S (length (lookups s)) /\
      criticals (set_priv s l priv1) = criticals s /\
      (heap (set_priv s l priv1) = heap s \/
       exists l0 priv0 priv2,
         LDM_USER s (Some l0) = Some (l0, priv0) /\
         heap (set_priv s l priv1) = store (heap s) l0 (fun _ => UserObject priv2) /\
         greeter priv2 = greeter priv0 /\
         (have_defaults priv0 = true ->
          have_defaults priv2 = true /\ get_out priv2 = get_out priv0))).
    { intros priv1 Hg Hd Ho. split; [done|]. split; [cbn; lia|]. split; [done|].
      right. exists l, priv, priv1. split; [done|]. split; [done|].
      split; [done|]. intros Ht. by rewrite Hd, Ho. }
    destruct c as [f|f v| |prop| |b]; cbn [perform].
    + apply Hsame. by rewrite (get_string_live f s _ l priv Huser).
    + rewrite (set_string_live f s _ l priv v Huser). apply Hset; by destruct f.
    + apply Hsame. unfold ldm_user_get_display_name, g_return_val_if_fail.
      rewrite Huser. by destruct (real_name priv).
    + rewrite (ldm_user_get_default_eq lookup prop s _ l priv Huser). cbn [fst].
      destruct (have_defaults priv) eqn:Hguard.
      * apply Hsame. by rewrite get_defaults_cached.
      * destruct (lookup (lookups s) (greeter priv) (name priv) (get_out priv))
          as [ok out] eqn:Hreply.
        rewrite (get_defaults_unset lookup s l priv ok out Hguard Hreply).
        cbn [fst heap criticals lookups].
        split; [by apply suffix_cons_r|]. split; [cbn; lia|]. split; [done|].
        right. eexists l, priv, _. split; [done|]. split; [reflexivity|].
        split; [by destruct ok|]. intros Ht. by rewrite Hguard in Ht.
    + apply Hsame. by rewrite (get_logged_in_live s _ l priv Huser).
    + rewrite (set_logged_in_live s _ l priv b Huser). by apply Hset.
  - assert (Hcrit : forall s', s' = g_critical s ->
      lookups s `suffix_of` lookups s' /\
      length (lookups s') <= S (length (lookups s)) /\
      criticals s' = S (criticals s) /\
      (heap s' = heap s \/
       exists l0 priv0 priv1,
         LDM_USER s (Some l0) = Some (l0, priv0) /\
         heap s' = store (heap s) l0 (fun _ => UserObject priv1) /\
         greeter priv1 = greeter priv0 /\
         (have_defaults priv0 = true ->
          have_defaults priv1 = true /\ get_out priv1 = get_out priv0))).
    { intros s' ->. split; [done|]. split; [cbn; lia|]. split; [done|]. by left. }
    apply Hcrit.
    destruct c as [f|f v| |prop| |b]; cbn [perform];
      try destruct f; try destruct prop;
      cbn [ldm_user_get_string ldm_user_set_string ldm_user_get_default];
      unfold ldm_user_get_name, ldm_user_get_real_name, ldm_user_get_display_name,
        ldm_user_get_home_directory, ldm_user_get_image, ldm_user_get_language,
        ldm_user_get_layout, ldm_user_get_session, ldm_user_get_logged_in,
        ldm_user_set_name, ldm_user_set_real_name, ldm_user_set_home_directory,
        ldm_user_set_image, ldm_user_set_logged_in,
        g_return_val_if_fail, g_return_if_fail;
      by rewrite Huser.
Qed.

Lemma LDM_USER_store s s' l0 priv0 priv1 :
  LDM_USER s (Some l0) = Some (l0, priv0) ->
  heap s' = store (heap s) l0 (fun _ => UserObject priv1) ->
  LDM_USER s' (Some l0) = Some (l0, priv1) /\
  (forall user, user <> Some l0 -> LDM_USER s' user = LDM_USER s user) /\
  (forall l', ref_count <$> heap s' !! l' = ref_count <$> heap s !! l').
Proof.
  intros (_ & rc & Hl)%LDM_USER_Some Hheap. split; [|split].
  - apply LDM_USER_Some. split; [done|]. exists rc. rewrite Hheap. unfold store.
    by rewrite lookup_alter_eq, Hl.
  - intros [l'|] Hne; unfold LDM_USER; [|done]. simpl. rewrite Hheap. unfold store.
    rewrite lookup_alter_ne; [done|]. congruence.
  - intros l'. rewrite Hheap. unfold store.
    destruct (decide (l0 = l')) as [->|Hne].
    + rewrite lookup_alter_eq. by destruct (heap s !! l').
    + by rewrite lookup_alter_ne.
Qed.

Lemma LDM_USER_same_heap s s' user :
  heap s' = heap s -> LDM_USER s' user = LDM_USER s user.
Proof. intros Hheap. unfold LDM_USER. by rewrite Hheap. Qed.

Lemma perform_keeps_objects s user c :
  (forall l', ref_count <$> heap (perform lookup s user c) !! l'
              = ref_count <$> heap s !! l') /\
  (forall p, LDM_IS_USER (perform lookup s user c) p = LDM_IS_USER s p).
Proof.
  destruct (perform_effect s user c) as (_ & _ & _ & [Hheap|Hupd]).
  - split; [intros l'; by rewrite Hheap|].
    intros p. unfold LDM_IS_USER. by rewrite (LDM_USER_same_heap _ _ _ Hheap).
  - destruct Hupd as (l0 & priv0 & priv1 & Hlive & Hheap & _).
    destruct (LDM_USER_store _ _ _ _ _ Hlive Hheap) as (Hat & Hother & Hrc).
    split; [exact Hrc|]. intros p. unfold LDM_IS_USER.
    destruct (decide (p = Some l0)) as [->|Hne].
    + by rewrite Hat, Hlive.
    + by rewrite Hother.
Qed.

Lemma perform_keeps_user s user c target l priv :
  LDM_USER s target = Some (l, priv) ->
  exists priv',
    LDM_USER (perform lookup s user c) target = Some (l, priv') /\
    greeter priv' = greeter priv /\
    (have_defaults priv = true ->
     have_defaults priv' = true /\ get_out priv' = get_out priv).
Proof.
  intros Htarget.
  destruct (perform_effect s user c) as (_ & _ & _ & [Hheap|Hupd]).
  - exists priv. by rewrite (LDM_USER_same_heap _ _ _ Hheap).
  - destruct Hupd as (l0 & priv0 & priv1 & Hlive & Hheap & Hg & Hcache).
    destruct (LDM_USER_store _ _ _ _ _ Hlive Hheap) as (Hat & Hother & _).
    destruct (decide (target = Some l0)) as [->|Hne].
    + rewrite Hlive in Htarget. injection Htarget as <- <-. by exists priv1.
    + exists priv. by rewrite Hother.
Qed.

(** No sequence of accessor calls, on whatever pointers, creates or
    frees an object, changes a reference count, or changes which pointers
    are users. *)
Theorem run_keeps_objects calls : forall s,
  (forall l', ref_count <$> heap (run lookup s calls) !! l'
              = ref_count <$> heap s !! l') /\
  (forall p, LDM_IS_USER (run lookup s calls) p = LDM_IS_USER s p).
Proof.
  induction calls as [|[user c] calls IH]; intros s; [done|].
  cbn [run fold_left fst snd].
  destruct (IH (perform lookup s user c)) as [Hrc Huser].
  destruct (perform_keeps_objects s user c) as [Hrc1 Huser1].
  split.
  - intros l'. unfold run in Hrc. by rewrite Hrc, Hrc1.
  - intros p. unfold run in Huser. by rewrite Huser, Huser1.
Qed.

(** Once the guard of a user is set, no sequence of accessor calls, on
    this user or on others, unsets it or changes the cached language,
    layout and session. *)
Theorem run_freezes_cached_defaults calls : forall s target l priv,
  LDM_USER s target = Some (l, priv) ->
  have_defaults priv = true ->
  exists priv',
    LDM_USER (run lookup s calls) target = Some (l, priv') /\
    have_defaults priv' = true /\
    language priv' = language priv /\
    layout priv' = layout priv /\
    session priv' = session priv.
Proof.
  induction calls as [|[user c] calls IH]; intros s target l priv Htarget Hguard.
  - exists priv. by repeat split.
  - cbn [run fold_left fst snd].
    destruct (perform_keeps_user s user c target l priv Htarget)
      as (priv1 & Htarget1 & _ & Hcache).
    destruct (Hcache Hguard) as [Hguard1 Hout1].
    destruct (IH _ target l priv1 Htarget1 Hguard1)
      as (priv' & Htarget' & Hguard' & Hlang & Hlay & Hsess).
    exists priv'. split; [exact Htarget'|]. split; [exact Hguard'|].
    unfold get_out in Hout1. injection Hout1 as E1 E2 E3.
    by rewrite Hlang, Hlay, Hsess.
Qed.

(** No accessor changes the greeter a user is connected to. *)
Theorem run_keeps_greeter calls : forall s target l priv,
  LDM_USER s target = Some (l, priv) ->
  exists priv',
    LDM_USER (run lookup s calls) target = Some (l, priv') /\
    greeter priv' = greeter priv.
Proof.
  induction calls as [|[user c] calls IH]; intros s target l priv Htarget.
  - by exists priv.
  - cbn [run fold_left fst snd].
    destruct (perform_keeps_user s user c target l priv Htarget)
      as (priv1 & Htarget1 & Hg1 & _).
    destruct (IH _ target l priv1 Htarget1) as (priv' & Htarget' & Hg').
    exists priv'. split; [exact Htarget'|]. by rewrite Hg', Hg1.
Qed.

Lemma run_criticals calls : forall s s0,
  (forall p, LDM_IS_USER s p = LDM_IS_USER s0 p) ->
  criticals (run lookup s calls)
    = criticals s
      + length (filter (fun uc : ptr * call => LDM_IS_USER s0 uc.1 = false) calls).
Proof.
  induction calls as [|[user c] calls IH]; intros s s0 Hsame.
  - cbn. lia.
  - cbn [run fold_left fst snd].
    destruct (perform_effect s user c) as (_ & _ & Hcrit & _).
    destruct (perform_keeps_objects s user c) as [_ Huser1].
    unfold run in IH. rewrite (IH _ s0) by (intros p; by rewrite Huser1).
    rewrite Hcrit, filter_cons. cbn [fst]. rewrite Hsame.
    destruct (LDM_IS_USER s0 user) eqn:E.
    + by rewrite decide_False.
    + rewrite decide_True by done. cbn [length]. lia.
Qed.

(** The log only grows: the requests sent before a sequence of calls are
    still at the end of the list after it, every call sends at most one
    request, and the criticals logged are exactly one for each call whose
    argument is not a live user. *)
Theorem run_log calls : forall s,
  lookups s `suffix_of` lookups (run lookup s calls) /\
  length (lookups (run lookup s calls)) <= length (lookups s) + length calls /\
  criticals (run lookup s calls)
    = criticals s
      + length (filter (fun uc : ptr * call => LDM_IS_USER s uc.1 = false) calls).
Proof.
  intros s. split; [|split; [|by apply run_criticals]]; revert s.
  - induction calls as [|[user c] calls IH]; intros s; [done|].
    cbn [run fold_left fst snd].
    destruct (perform_effect s user c) as (Hsuf & _).
    etrans; [exact Hsuf|]. apply IH.
  - induction calls as [|[user c] calls IH]; intros s; [cbn; lia|].
    cbn [run fold_left fst snd].
    destruct (perform_effect s user c) as (_ & Hlen & _).
    specialize (IH (perform lookup s user c)). unfold run in IH.
    cbn [length]. lia.
Qed.

End sequences.

Lemma setters_keep_cached_defaults_alice :
  ldm_user_get_default daemon User.PROP_LAYOUT
      (ldm_user_set_string NAME alice_cached alice_created.2 (Some "alicia"))
      alice_created.2
    = (ldm_user_set_string NAME alice_cached alice_created.2 (Some "alicia"),
       cached_default User.PROP_LAYOUT alice_cached_priv).
Proof.
  apply (setters_keep_cached_defaults daemon alice_cached alice_created.2
           2%positive alice_cached_priv); vm_compute; reflexivity.
Defined.

Lemma first_read_returns_the_reply_alice :
  exists s1,
    ldm_user_get_language daemon alice_retry alice_created.2 = (s1, Some "en_GB") /\
    ldm_user_get_layout daemon alice_retry alice_created.2 = (s1, Some "gb") /\
    ldm_user_get_session daemon alice_retry alice_created.2 = (s1, Some "gnome") /\
    lookups s1 = (greeter alice_priv, name alice_priv) :: lookups alice_retry /\
    criticals s1 = criticals alice_retry /\
    (forall other, other <> alice_created.2 ->
       LDM_USER s1 other = LDM_USER alice_retry other).
Proof.
  apply (first_read_returns_the_reply daemon alice_retry alice_created.2
           2%positive alice_priv true (Some "en_GB", Some "gb", Some "gnome"));
    vm_compute; reflexivity.
Defined.


Lemma run_freezes_cached_defaults_alice :
  exists priv',
    LDM_USER (run daemon alice_cached mixed_calls) alice_created.2
      = Some (2%positive, priv') /\
    have_defaults priv' = true /\
    language priv' = language alice_cached_priv /\
    layout priv' = layout alice_cached_priv /\
    session priv' = session alice_cached_priv.
Proof.
  apply (run_freezes_cached_defaults daemon mixed_calls alice_cached
           alice_created.2 2%positive alice_cached_priv); vm_compute; reflexivity.
Defined.

Lemma run_keeps_greeter_alice :
  exists priv',
    LDM_USER (run daemon alice_created.1 mixed_calls) alice_created.2
      = Some (2%positive, priv') /\
    greeter priv' = greeter alice_priv.
Proof.
  apply (run_keeps_greeter daemon mixed_calls alice_created.1
           alice_created.2 2%positive alice_priv); vm_compute; reflexivity.
Defined.

End UserCallsFacts.

(** ** Facts about the GObject properties of the user record *)

Module UserPropertiesFacts.

Import User UserFacts UserCalls UserCallsFacts UserProperties.

Implicit Types (s : state) (object : ptr) (l : loc) (priv : LdmUserPrivate)
  (prop_id : N) (value : GValue).

Lemma LDM_IS_USER_true s object :
  LDM_IS_USER s object = true -> exists l priv, LDM_USER s object = Some (l, priv).
Proof.
  unfold LDM_IS_USER. destruct (LDM_USER s object) as [[l priv]|]; [eauto|done].
Qed.

Section properties.

Variable lookup : list (ptr * gchar_p) -> ptr -> gchar_p -> defaults -> bool * defaults.

(** The two switches agree with the flags of the installed properties,
    for every identifier a caller can pass.  [ldm_user_set_property]
    handles exactly the identifiers installed as writable and, for any
    other, warns and leaves the state as it is; [ldm_user_get_property]
    handles exactly those installed as readable and, for any other,
    warns and leaves state and value as they are. *)
Theorem switches_match_installed_flags s object prop_id value :
  LDM_IS_USER s object = true ->
  (if writable prop_id
   then exists s1, ldm_user_set_property s object prop_id value = Some (s1, false)
   else ldm_user_set_property s object prop_id value = Some (s, true)) /\
  (if readable prop_id
   then exists s1 value1,
     ldm_user_get_property lookup s object prop_id value = Some (s1, value1, false)
   else ldm_user_get_property lookup s object prop_id value = Some (s, value, true)).
Proof.
  intros (l & priv & Huser)%LDM_IS_USER_true.
  unfold ldm_user_set_property, ldm_user_get_property.
  rewrite Huser. cbn [mbind option_bind].
  destruct prop_id as [|p]; [|do 4 (try destruct p as [p|p|])];
    split;
    match goal with
    | |- context [writable ?n] =>
        let b := eval vm_compute in (writable n) in
        change (writable n) with b; cbv iota
    | |- context [readable ?n] =>
        let b := eval vm_compute in (readable n) in
        change (readable n) with b; cbv iota
    end;
    try reflexivity;
    destruct value; cbn [g_value_get_object g_value_get_string g_value_get_boolean];
    repeat match goal with
    | |- context [g_object_ref ?h ?v] => destruct (g_object_ref h v)
    | |- context [g_value_set_string ?s0 ?val ?v] => destruct (g_value_set_string s0 val v)
    | |- context [g_value_set_boolean ?s0 ?val ?v] => destruct (g_value_set_boolean s0 val v)
    end;
    eauto.
Qed.




(** What is written through a read-write property is what is read back
    through it: the four string properties and the logged-in flag round
    trip through [ldm_user_set_property] and [ldm_user_get_property], and
    the read changes nothing. *)
Theorem property_round_trip s object :
  LDM_IS_USER s object = true ->
  (forall prop_id v old,
     In prop_id [PROP_NAME; PROP_REAL_NAME; PROP_HOME_DIRECTORY; PROP_IMAGE] ->
     exists s1,
       ldm_user_set_property s object prop_id (G_VALUE_STRING v) = Some (s1, false) /\
       ldm_user_get_property lookup s1 object prop_id (G_VALUE_STRING old)
         = Some (s1, G_VALUE_STRING v, false)) /\
  (forall b old,
     exists s1,
       ldm_user_set_property s object PROP_LOGGED_IN (G_VALUE_BOOLEAN b)
         = Some (s1, false) /\
       ldm_user_get_property lookup s1 object PROP_LOGGED_IN (G_VALUE_BOOLEAN old)
         = Some (s1, G_VALUE_BOOLEAN b, false)).
Proof.
  intros (l & priv & Huser)%LDM_IS_USER_true.
  pose proof (LDM_USER_pointer _ _ _ _ Huser) as ->.
  assert (Hstring : forall f v old,
    exists s1,
      Some (ldm_user_set_string f s (Some l) v, false) = Some (s1, false) /\
      LDM_USER s1 (Some l) = Some (l, with_string f v priv) /\
      (let '(s2, value2) :=
         g_value_set_string (ldm_user_get_string f s1 (Some l)).1 (G_VALUE_STRING old)
                            (ldm_user_get_string f s1 (Some l)).2 in
       Some (s2, value2, false)) = Some (s1, G_VALUE_STRING v, false)).
  { intros f v old. eexists. split; [reflexivity|].
    rewrite (set_string_live f s _ l priv v Huser).
    pose proof (set_priv_live s l priv (with_string f v priv) Huser) as Huser1.
    split; [exact Huser1|].
    rewrite (get_string_live f _ _ l _ Huser1). cbn [fst snd g_value_set_string].
    unfold g_strdup. by destruct f. }
  split.
  - intros prop_id v old Hin. cbn [In] in Hin.
    unfold ldm_user_set_property, ldm_user_get_property. rewrite Huser.
    cbn [mbind option_bind g_value_get_string].
    destruct Hin as [<-|[<-|[<-|[<-|[]]]]].
    + destruct (Hstring NAME v old) as (s1 & [= <-] & Huser1 & Hread).
      eexists. split; [reflexivity|]. cbn [ldm_user_set_string] in *.
      rewrite Huser1. exact Hread.
    + destruct (Hstring REAL_NAME v old) as (s1 & [= <-] & Huser1 & Hread).
      eexists. split; [reflexivity|]. cbn [ldm_user_set_string] in *.
      rewrite Huser1. exact Hread.
    + destruct (Hstring HOME_DIRECTORY v old) as (s1 & [= <-] & Huser1 & Hread).
      eexists. split; [reflexivity|]. cbn [ldm_user_set_string] in *.
      rewrite Huser1. exact Hread.
    + destruct (Hstring IMAGE v old) as (s1 & [= <-] & Huser1 & Hread).
      eexists. split; [reflexivity|]. cbn [ldm_user_set_string] in *.
      rewrite Huser1. exact Hread.
  - intros b old.
    unfold ldm_user_set_property, ldm_user_get_property. rewrite Huser.
    cbn [mbind option_bind g_value_get_boolean].
    eexists. split; [reflexivity|].
    rewrite (set_logged_in_live s _ l priv b Huser).
    pose proof (set_priv_live s l priv (set_logged_in b priv) Huser) as Huser1.
    rewrite Huser1. cbn [mbind option_bind].
    by rewrite (get_logged_in_live _ _ l _ Huser1).
Qed.

(** Writing the greeter property takes one reference on the greeter and
    connects the user to it; every other object is as it was, nothing is
    logged, and the property cannot be read back: reading it warns and
    leaves the value alone. *)
Theorem greeter_property_is_write_only s object l priv g rc value :
  LDM_USER s object = Some (l, priv) ->
  heap s !! g = Some (Cell rc GreeterObject) ->
  exists s1,
    ldm_user_set_property s object PROP_GREETER (G_VALUE_OBJECT (Some g))
      = Some (s1, false) /\
    heap s1 !! g = Some (Cell (S rc) GreeterObject) /\
    LDM_USER s1 object = Some (l, set_greeter (Some g) priv) /\
    (forall l', l' <> l -> l' <> g -> heap s1 !! l' = heap s !! l') /\
    criticals s1 = criticals s /\ lookups s1 = lookups s /\
    ldm_user_get_property lookup s1 object PROP_GREETER value = Some (s1, value, true).
Proof.
  intros Huser Hg.
  pose proof Huser as (-> & rcu & Hl)%LDM_USER_Some.
  assert (Hne : g <> l) by (intros ->; rewrite Hl in Hg; discriminate).
  unfold ldm_user_set_property, ldm_user_get_property. rewrite Huser.
  cbn [mbind option_bind g_value_get_object fst snd].
  rewrite (GObjectFacts.g_object_ref_live (heap s) g _ Hg).
  cbn [ref_count payload].
  eexists. split; [reflexivity|].
  assert (Huser1 : LDM_USER
            (set_priv (with_heap s (<[g := Cell (S rc) GreeterObject]> (heap s)))
                      l (set_greeter (Some g) priv)) (Some l)
          = Some (l, set_greeter (Some g) priv)).
  { apply (set_priv_live _ l priv). apply LDM_USER_Some. split; [done|].
    exists rcu. cbn [with_heap heap]. by rewrite lookup_insert_ne. }
  split.
  { unfold set_priv, with_heap, store. cbn [heap].
    rewrite lookup_alter_ne by done. apply lookup_insert_eq. }
  split; [exact Huser1|]. split.
  { intros l' Hl' Hg'. unfold set_priv, with_heap, store. cbn [heap].
    rewrite lookup_alter_ne by done. by rewrite lookup_insert_ne. }
  split; [done|]. split; [done|]. by rewrite Huser1.
Qed.

End properties.


Lemma switches_match_installed_flags_alice :
  (if writable PROP_DISPLAY_NAME
   then exists s1,
     ldm_user_set_property alice_created.1 alice_created.2 PROP_DISPLAY_NAME
                           (G_VALUE_STRING (Some "A")) = Some (s1, false)
   else ldm_user_set_property alice_created.1 alice_created.2 PROP_DISPLAY_NAME
                              (G_VALUE_STRING (Some "A"))
        = Some (alice_created.1, true)) /\
  (if readable PROP_DISPLAY_NAME
   then exists s1 value1,
     ldm_user_get_property daemon alice_created.1 alice_created.2 PROP_DISPLAY_NAME
                           (G_VALUE_STRING (Some "A")) = Some (s1, value1, false)
   else ldm_user_get_property daemon alice_created.1 alice_created.2 PROP_DISPLAY_NAME
                              (G_VALUE_STRING (Some "A"))
        = Some (alice_created.1, G_VALUE_STRING (Some "A"), true)).
Proof.
  apply (switches_match_installed_flags daemon alice_created.1 alice_created.2
           PROP_DISPLAY_NAME (G_VALUE_STRING (Some "A"))).
  vm_compute. reflexivity.
Defined.

Lemma property_round_trip_alice :
  (forall prop_id v old,
     In prop_id [PROP_NAME; PROP_REAL_NAME; PROP_HOME_DIRECTORY; PROP_IMAGE] ->
     exists s1,
       ldm_user_set_property alice_created.1 alice_created.2 prop_id (G_VALUE_STRING v)
         = Some (s1, false) /\
       ldm_user_get_property daemon s1 alice_created.2 prop_id (G_VALUE_STRING old)
         = Some (s1, G_VALUE_STRING v, false)) /\
  (forall b old,
     exists s1,
       ldm_user_set_property alice_created.1 alice_created.2 PROP_LOGGED_IN
                             (G_VALUE_BOOLEAN b) = Some (s1, false) /\
       ldm_user_get_property daemon s1 alice_created.2 PROP_LOGGED_IN
                             (G_VALUE_BOOLEAN old)
         = Some (s1, G_VALUE_BOOLEAN b, false)).
Proof.
  apply (property_round_trip daemon alice_created.1 alice_created.2).
  vm_compute. reflexivity.
Defined.

Lemma greeter_property_is_write_only_alice :
  exists s1,
    ldm_user_set_property alice_created.1 alice_created.2 PROP_GREETER
                          (G_VALUE_OBJECT (Some 1%positive)) = Some (s1, false) /\
    heap s1 !! 1%positive = Some (Cell 3 GreeterObject) /\
    LDM_USER s1 alice_created.2
      = Some (2%positive, set_greeter (Some 1%positive) alice_priv) /\
    (forall l', l' <> 2%positive -> l' <> 1%positive ->
       heap s1 !! l' = heap alice_created.1 !! l') /\
    criticals s1 = criticals alice_created.1 /\
    lookups s1 = lookups alice_created.1 /\
    ldm_user_get_property daemon s1 alice_created.2 PROP_GREETER
                          (G_VALUE_OBJECT NULL) = Some (s1, G_VALUE_OBJECT NULL, true).
Proof.
  apply (greeter_property_is_write_only daemon alice_created.1 alice_created.2
           2%positive alice_priv 1%positive 2 (G_VALUE_OBJECT NULL));
    vm_compute; reflexivity.
Defined.

End UserPropertiesFacts.
